(** * ThriveCare dashboard: state and derivation logic of [page.tsx]

    A shallow embedding of the [Home] component's event handlers and derived
    values (role / actor / child selection, session logging, family updates,
    aggregate metrics) and of the two panels that carry logic of their own
    ([TherapistLogForm], [DonorImpactPanel]).

    React state is passed explicitly: a handler is a function from the state
    it closes over to the state after its [set...] calls have been applied.
    Capabilities of the host ([crypto.randomUUID], the clock, [Date] parsing,
    the local time zone) are inputs of the functions that use them. *)

From Stdlib Require Import ZArith QArith Qround Qminmax Lia Lqa List Bool String Ascii.
From Stdlib Require PrimFloat Uint63.
From stdpp Require Import base gmap list.
Import ListNotations.

Local Open Scope Q_scope.

(** ** Strings

    A JavaScript string is a sequence of UTF-16 code units. *)

Abbreviation jsstring := (list N).

(** String literals of the development, code unit by code unit. *)
Definition js (s : string) : jsstring :=
  map N_of_ascii (list_ascii_of_string s).

(** [WhiteSpace] and [LineTerminator] code points of ECMAScript, the ones
    [String.prototype.trim] strips. *)
Definition isWhiteSpace (c : N) : bool :=
  existsb (N.eqb c)
    [0x0009; 0x000A; 0x000B; 0x000C; 0x000D; 0x0020; 0x00A0; 0x1680;
     0x2028; 0x2029; 0x202F; 0x205F; 0x3000; 0xFEFF]%N
  || (N.leb 0x2000 c && N.leb c 0x200A).

Fixpoint trimStart (s : jsstring) : jsstring :=
  match s with
  | [] => []
  | c :: rest => if isWhiteSpace c then trimStart rest else s
  end.

Definition trimEnd (s : jsstring) : jsstring := rev (trimStart (rev s)).

Definition trim (s : jsstring) : jsstring := trimEnd (trimStart s).

(** Truthiness of a string: every string but the empty one. *)
Definition truthy (s : jsstring) : bool :=
  match s with [] => false | _ :: _ => true end.

(** [xs.includes(x)] on an array of strings. *)
Definition includes (xs : list jsstring) (x : jsstring) : bool :=
  existsb (fun y => bool_decide (y = x)) xs.

(** ** Numbers

    The percentages and ratings of the data set are finite numbers; they are
    carried as exact rationals.  A division can leave the finite numbers
    (a zero divisor), so quotients live in [jsnum], the finite numbers
    extended with the two infinities and NaN.  Rounding error of the binary64
    representation and the sign of zero are not represented: a zero divisor
    is the positive zero that an array length or a literal gives. *)

Inductive jsnum : Type :=
| Fin (q : Q)
| PosInf
| NegInf
| NaN.

Definition js_add (a b : jsnum) : jsnum :=
  match a, b with
  | NaN, _ | _, NaN => NaN
  | PosInf, NegInf | NegInf, PosInf => NaN
  | PosInf, _ | _, PosInf => PosInf
  | NegInf, _ | _, NegInf => NegInf
  | Fin x, Fin y => Fin (x + y)
  end.

Definition Qsign (x : Q) : comparison := x ?= 0.

Definition js_div (a b : jsnum) : jsnum :=
  match a, b with
  | NaN, _ | _, NaN => NaN
  | (PosInf | NegInf), (PosInf | NegInf) => NaN
  | Fin _, (PosInf | NegInf) => Fin 0
  | PosInf, Fin y => match Qsign y with Lt => NegInf | _ => PosInf end
  | NegInf, Fin y => match Qsign y with Lt => PosInf | _ => NegInf end
  | Fin x, Fin y =>
      match Qsign y with
      | Eq => match Qsign x with
              | Eq => NaN
              | Gt => PosInf
              | Lt => NegInf
              end
      | _ => Fin (x / y)
      end
  end.

(** [a >= b]: false as soon as one side is NaN. *)
Definition js_ge (a b : jsnum) : bool :=
  match a, b with
  | NaN, _ | _, NaN => false
  | PosInf, _ => true
  | _, NegInf => true
  | NegInf, _ => false
  | _, PosInf => false
  | Fin x, Fin y => Qle_bool y x
  end.

(** [Math.round] on a finite number: the nearest integer, a tie going to the
    larger one. *)
Definition round_half_up (x : Q) : Z := Qfloor (x + 0.5).

Definition Math_round (a : jsnum) : jsnum :=
  match a with
  | Fin x => Fin (inject_Z (round_half_up x))
  | other => other
  end.

(** ** Entity model ([@/lib/types], as the component uses it) *)

Inductive TherapyStatus : Type := on_track | needs_support | at_risk.

Inductive RoleKey : Type := center | therapist | parent | donor.

Module TherapyGoal.
Record t : Type := mk {
  id : jsstring;
  category : jsstring;
  description : jsstring;
  baseline : Q;
  current : Q;
  target : Q;
  status : TherapyStatus
}.

(** [{ ...goal, current: c }] *)
Definition with_current (c : Q) (g : t) : t :=
  mk (id g) (category g) (description g) (baseline g) c (target g) (status g).

(** [{ ...goal, status }] *)
Definition with_status (st : TherapyStatus) (g : t) : t :=
  mk (id g) (category g) (description g) (baseline g) (current g) (target g) st.
End TherapyGoal.

Module TherapySession.
Record t : Type := mk {
  id : jsstring;
  date : jsstring;
  focus : jsstring;
  goalsWorkedOn : list jsstring;
  rating : Q;
  notes : jsstring;
  therapistId : jsstring
}.
End TherapySession.

Module UpcomingSession.
Record t : Type := mk {
  id : jsstring;
  childId : jsstring;
  therapistId : jsstring;
  date : jsstring;
  focus : jsstring;
  location : jsstring
}.
End UpcomingSession.

Module ChildProfile.
Record t : Type := mk {
  id : jsstring;
  name : jsstring;
  age : Q;
  diagnosis : jsstring;
  avatarColor : jsstring;
  therapists : list jsstring;
  therapyGoals : list TherapyGoal.t;
  sessionHistory : list TherapySession.t;
  upcomingSessions : list UpcomingSession.t
}.

(** [{ ...child, therapyGoals: goals, sessionHistory: history }] *)
Definition with_goals_history
    (goals : list TherapyGoal.t) (history : list TherapySession.t) (c : t) : t :=
  mk (id c) (name c) (age c) (diagnosis c) (avatarColor c) (therapists c)
     goals history (upcomingSessions c).
End ChildProfile.

(** The three actor profiles; the component reads [id] and [childIds] of
    each (and display fields that play no part in the logic). *)
Module TherapistProfile.
Record t : Type := mk {
  id : jsstring;
  name : jsstring;
  title : jsstring;
  childIds : list jsstring
}.
End TherapistProfile.

Module ParentProfile.
Record t : Type := mk {
  id : jsstring;
  name : jsstring;
  contact : jsstring;
  childIds : list jsstring
}.
End ParentProfile.

Module DonorProfile.
Record t : Type := mk {
  id : jsstring;
  name : jsstring;
  contribution : Q;
  lastUpdate : jsstring;
  missions : list jsstring;
  childIds : list jsstring
}.
End DonorProfile.

Module FamilyUpdate.
Record t : Type := mk {
  id : jsstring;
  message : jsstring;
  date : jsstring
}.
End FamilyUpdate.

(** ** The [Home] component *)

Record AppState : Type := mkState {
  children : list ChildProfile.t;
  selectedRole : RoleKey;
  selectedTherapistId : jsstring;
  selectedParentId : jsstring;
  selectedDonorId : jsstring;
  selectedChildId : jsstring;
  familyUpdates : gmap jsstring (list FamilyUpdate.t)
}.

Definition set_selectedRole (r : RoleKey) (s : AppState) : AppState :=
  mkState (children s) r (selectedTherapistId s) (selectedParentId s)
          (selectedDonorId s) (selectedChildId s) (familyUpdates s).

Definition set_selectedTherapistId (i : jsstring) (s : AppState) : AppState :=
  mkState (children s) (selectedRole s) i (selectedParentId s)
          (selectedDonorId s) (selectedChildId s) (familyUpdates s).

Definition set_selectedParentId (i : jsstring) (s : AppState) : AppState :=
  mkState (children s) (selectedRole s) (selectedTherapistId s) i
          (selectedDonorId s) (selectedChildId s) (familyUpdates s).

Definition set_selectedDonorId (i : jsstring) (s : AppState) : AppState :=
  mkState (children s) (selectedRole s) (selectedTherapistId s)
          (selectedParentId s) i (selectedChildId s) (familyUpdates s).

Definition set_selectedChildId (i : jsstring) (s : AppState) : AppState :=
  mkState (children s) (selectedRole s) (selectedTherapistId s)
          (selectedParentId s) (selectedDonorId s) i (familyUpdates s).

Definition set_children (cs : list ChildProfile.t) (s : AppState) : AppState :=
  mkState cs (selectedRole s) (selectedTherapistId s) (selectedParentId s)
          (selectedDonorId s) (selectedChildId s) (familyUpdates s).

Definition set_familyUpdates
    (m : gmap jsstring (list FamilyUpdate.t)) (s : AppState) : AppState :=
  mkState (children s) (selectedRole s) (selectedTherapistId s)
          (selectedParentId s) (selectedDonorId s) (selectedChildId s) m.

(** [a ?? b] on a possibly undefined value. *)
Definition nullish {A : Type} (a b : option A) : option A :=
  match a with Some x => Some x | None => b end.

(** [children.some((child) => child.id === i)] *)
Definition hasChild (cs : list ChildProfile.t) (i : jsstring) : bool :=
  existsb (fun child => bool_decide (ChildProfile.id child = i)) cs.

Definition findFirstExistingChildId
    (cs : list ChildProfile.t) (ids : list jsstring) : option jsstring :=
  find (fun childId => hasChild cs childId) ids.

(** [children[0]?.id ?? ""] *)
Definition firstChildId (cs : list ChildProfile.t) : jsstring :=
  match cs with
  | c :: _ => ChildProfile.id c
  | [] => []
  end.

Definition ensureChildSelection
    (cs : list ChildProfile.t) (candidateId : option jsstring) : jsstring :=
  match candidateId with
  | Some i => if truthy i && hasChild cs i then i else firstChildId cs
  | None => firstChildId cs
  end.

(** The payload [TherapistLogForm] hands to [handleAddSession]. *)
Module SessionPayload.
Record t : Type := mk {
  childId : jsstring;
  focus : jsstring;
  notes : jsstring;
  rating : Q;
  date : jsstring;
  goalIds : list jsstring;
  therapistId : jsstring
}.
End SessionPayload.

Definition updateGoalStatus (goal : TherapyGoal.t) : TherapyGoal.t :=
  let ratio := js_div (Fin (TherapyGoal.current goal)) (Fin (TherapyGoal.target goal)) in
  let status :=
    if js_ge ratio (Fin 0.8) then on_track
    else if js_ge ratio (Fin 0.55) then needs_support
    else at_risk in
  TherapyGoal.with_status status goal.

Definition noNotesPlaceholder : jsstring := js "No additional notes recorded.".

(** The session record [handleAddSession] builds; [newId] is what
    [createClientId()] returned. *)
Definition buildSession (newId : jsstring) (p : SessionPayload.t) : TherapySession.t :=
  TherapySession.mk
    newId
    (SessionPayload.date p)
    (trim (SessionPayload.focus p))
    (SessionPayload.goalIds p)
    (SessionPayload.rating p)
    (if truthy (trim (SessionPayload.notes p))
     then trim (SessionPayload.notes p) else noNotesPlaceholder)
    (SessionPayload.therapistId p).

(** [Math.round((rating / 5) * 8)] *)
Definition increment (rating : Q) : Q :=
  inject_Z (round_half_up ((rating / 5) * 8)).

(** The goal engine as [handleAddSession] runs it on a goal, for a new value
    [newCurrent] of its progress:
    [nextCurrent = Math.min(goal.target, newCurrent)], then
    [updateGoalStatus({ ...goal, current: nextCurrent })]. *)
Definition reclassify (goal : TherapyGoal.t) (newCurrent : Q) : TherapyGoal.t :=
  let nextCurrent := Qmin (TherapyGoal.target goal) newCurrent in
  updateGoalStatus (TherapyGoal.with_current nextCurrent goal).

(** The callback mapped over the goals of the child the session is for. *)
Definition advanceGoal (p : SessionPayload.t) (goal : TherapyGoal.t) : TherapyGoal.t :=
  if negb (includes (SessionPayload.goalIds p) (TherapyGoal.id goal)) then goal
  else
    reclassify goal
      (TherapyGoal.current goal + increment (SessionPayload.rating p)).

(** The callback mapped over the roster by [setChildren]. *)
Definition addSessionToChild
    (session : TherapySession.t) (p : SessionPayload.t) (child : ChildProfile.t)
  : ChildProfile.t :=
  if negb (bool_decide (ChildProfile.id child = SessionPayload.childId p)) then child
  else
    let updatedGoals := map (advanceGoal p) (ChildProfile.therapyGoals child) in
    ChildProfile.with_goals_history
      updatedGoals (session :: ChildProfile.sessionHistory child) child.

Definition handleAddSession
    (newId : jsstring) (p : SessionPayload.t) (s : AppState) : AppState :=
  if negb (truthy (trim (SessionPayload.focus p))) then s
  else
    let session := buildSession newId p in
    set_children (map (addSessionToChild session p) (children s)) s.

(** Outcome of a handler whose state update can throw. *)
Inductive outcome : Type :=
| Done (s : AppState)
| TypeError.

(** Property names every object literal inherits from [Object.prototype]:
    [prev[childId]] finds a function or an object under them. *)
Definition objectPrototypeKeys : list jsstring :=
  map js ["constructor"; "hasOwnProperty"; "isPrototypeOf";
          "propertyIsEnumerable"; "toLocaleString"; "toString"; "valueOf";
          "__proto__"; "__defineGetter__"; "__defineSetter__";
          "__lookupGetter__"; "__lookupSetter__"]%string.

(** [newId] is what [createClientId()] returned and [nowIso] what
    [new Date().toISOString()] returned.  [prev[childId] ?? []] is the own
    entry when there is one and [[]] when the name is unknown; under an
    inherited name it is a value that the spread [...existing] cannot
    iterate. *)
Definition handleAddFamilyUpdate
    (newId nowIso : jsstring) (childId message : jsstring) (s : AppState) : outcome :=
  if negb (truthy (trim message)) then Done s
  else
    let newEntry := FamilyUpdate.mk newId (trim message) nowIso in
    match familyUpdates s !! childId with
    | Some existing =>
        Done (set_familyUpdates (<[childId := newEntry :: existing]> (familyUpdates s)) s)
    | None =>
        if includes objectPrototypeKeys childId then TypeError
        else Done (set_familyUpdates (<[childId := [newEntry]]> (familyUpdates s)) s)
    end.

Section Home.

(** [initialSnapshot.therapists], [.parents] and [.donors]: fixed lists the
    component never updates. *)
Variable therapists : list TherapistProfile.t.
Variable parents : list ParentProfile.t.
Variable donors : list DonorProfile.t.

Definition findTherapist (i : jsstring) : option TherapistProfile.t :=
  find (fun profile => bool_decide (TherapistProfile.id profile = i)) therapists.

Definition findParent (i : jsstring) : option ParentProfile.t :=
  find (fun profile => bool_decide (ParentProfile.id profile = i)) parents.

Definition findDonor (i : jsstring) : option DonorProfile.t :=
  find (fun profile => bool_decide (DonorProfile.id profile = i)) donors.

(** Selects the child for an actor's child-id list. *)
Definition selectChildOf (ids : list jsstring) (s : AppState) : AppState :=
  let childId := findFirstExistingChildId (children s) ids in
  set_selectedChildId (ensureChildSelection (children s) childId) s.

Definition handleRoleSelect (role : RoleKey) (s : AppState) : AppState :=
  let s1 := set_selectedRole role s in
  match role with
  | therapist =>
      match nullish (findTherapist (selectedTherapistId s)) (head therapists) with
      | Some fallbackTherapist =>
          selectChildOf (TherapistProfile.childIds fallbackTherapist)
            (set_selectedTherapistId (TherapistProfile.id fallbackTherapist) s1)
      | None => s1
      end
  | parent =>
      match nullish (findParent (selectedParentId s)) (head parents) with
      | Some fallbackParent =>
          selectChildOf (ParentProfile.childIds fallbackParent)
            (set_selectedParentId (ParentProfile.id fallbackParent) s1)
      | None => s1
      end
  | donor =>
      match nullish (findDonor (selectedDonorId s)) (head donors) with
      | Some fallbackDonor =>
          selectChildOf (DonorProfile.childIds fallbackDonor)
            (set_selectedDonorId (DonorProfile.id fallbackDonor) s1)
      | None => s1
      end
  | center =>
      set_selectedChildId
        (ensureChildSelection (children s) (Some (selectedChildId s))) s1
  end.

Definition handleTherapistChange (i : jsstring) (s : AppState) : AppState :=
  let s1 := set_selectedTherapistId i s in
  match findTherapist i with
  | Some t => selectChildOf (TherapistProfile.childIds t) s1
  | None => s1
  end.

Definition handleParentChange (i : jsstring) (s : AppState) : AppState :=
  let s1 := set_selectedParentId i s in
  match findParent i with
  | Some p => selectChildOf (ParentProfile.childIds p) s1
  | None => s1
  end.

Definition handleDonorChange (i : jsstring) (s : AppState) : AppState :=
  let s1 := set_selectedDonorId i s in
  match findDonor i with
  | Some d => selectChildOf (DonorProfile.childIds d) s1
  | None => s1
  end.

Definition selectedChild (s : AppState) : option ChildProfile.t :=
  find (fun child => bool_decide (ChildProfile.id child = selectedChildId s))
       (children s).

Definition selectedParent (s : AppState) : option ParentProfile.t :=
  findParent (selectedParentId s).

Definition selectedDonor (s : AppState) : option DonorProfile.t :=
  findDonor (selectedDonorId s).

(** [profile?.childIds.includes(i)], with [undefined] read as false by
    [filter]. *)
Definition optIncludes (ids : option (list jsstring)) (i : jsstring) : bool :=
  match ids with
  | Some l => includes l i
  | None => false
  end.

Definition filteredChildren (s : AppState) : list ChildProfile.t :=
  match selectedRole s with
  | therapist =>
      List.filter
        (fun child => includes (ChildProfile.therapists child) (selectedTherapistId s))
        (children s)
  | parent =>
      List.filter
        (fun child =>
           optIncludes (option_map ParentProfile.childIds (selectedParent s))
                       (ChildProfile.id child))
        (children s)
  | donor =>
      List.filter
        (fun child =>
           optIncludes (option_map DonorProfile.childIds (selectedDonor s))
                       (ChildProfile.id child))
        (children s)
  | center => children s
  end.

Definition resolvedChild (s : AppState) : option ChildProfile.t :=
  nullish (selectedChild s) (nullish (head (filteredChildren s)) (head (children s))).

End Home.

(** ** Derived metrics of [Home] *)

Definition allGoals (cs : list ChildProfile.t) : list TherapyGoal.t :=
  flat_map ChildProfile.therapyGoals cs.

(** Number of elements of an array, as a number. *)
Definition len {A : Type} (l : list A) : Q := inject_Z (Z.of_nat (length l)).

Definition averageGoalProgress (cs : list ChildProfile.t) : jsnum :=
  let goals := allGoals cs in
  match goals with
  | [] => Fin 0
  | _ :: _ =>
      let total := fold_left (fun sum goal => sum + TherapyGoal.current goal) goals 0 in
      Math_round (js_div (Fin total) (Fin (len goals)))
  end.

Definition isOnTrack (st : TherapyStatus) : bool :=
  match st with on_track => true | _ => false end.

Definition atRiskGoals (cs : list ChildProfile.t) : nat :=
  length (List.filter (fun goal => negb (isOnTrack (TherapyGoal.status goal)))
                      (allGoals cs)).

Definition upcomingSessions (cs : list ChildProfile.t) : list UpcomingSession.t :=
  flat_map ChildProfile.upcomingSessions cs.

(** *** Sessions this week

    A [Date] is its time value: milliseconds since the epoch, or NaN
    (here [None]) for an invalid date.  The month table of the calendar and
    the offset of the local zone belong to the host; [setDate] is written
    over them as ECMAScript defines it. *)
Section Clock.

(** Time value of [new Date(text)]; [None] when the text is no date. *)
Variable parseDate : jsstring -> option Z.
(** Offset of the local zone from UTC, in milliseconds, at a UTC time value
    ([true]) or at a local one ([false]). *)
Variable LocalTZA : Z -> bool -> Z.
(** Calendar year and month (0..11) of a time value, and the day number of
    the first day of a month of a year. *)
Variable YearFromTime : Z -> Z.
Variable MonthFromTime : Z -> Z.
Variable DayOfMonthStart : Z -> Z -> Z.

Local Open Scope Z_scope.

Definition msPerDay : Z := 86400000.

Definition Day (t : Z) : Z := t / msPerDay.

Definition TimeWithinDay (t : Z) : Z := t mod msPerDay.

Definition LocalTime (t : Z) : Z := t + LocalTZA t true.

Definition UTC (t : Z) : Z := t - LocalTZA t false.

(** Day of the month, 1 for the first. *)
Definition DateFromTime (t : Z) : Z :=
  Day t - DayOfMonthStart (YearFromTime t) (MonthFromTime t) + 1.

Definition MakeDay (year month date : Z) : Z :=
  DayOfMonthStart year month + date - 1.

Definition MakeDate (day time : Z) : Z := day * msPerDay + time.

Definition TimeClip (t : Z) : option Z :=
  if Z.abs t >? 8640000000000000 then None else Some t.

(** [d.getDate()] *)
Definition getDate (tv : Z) : Z := DateFromTime (LocalTime tv).

(** Time value of [d] after [d.setDate(dt)]. *)
Definition setDate (tv : Z) (dt : Z) : option Z :=
  let t := LocalTime tv in
  let newDate :=
    MakeDate (MakeDay (YearFromTime t) (MonthFromTime t) dt) (TimeWithinDay t) in
  TimeClip (UTC newDate).

(** [const weekAgo = new Date(); weekAgo.setDate(weekAgo.getDate() - 7)],
    with [now] the time value of [new Date()]. *)
Definition weekAgo (now : Z) : option Z := setDate now (getDate now - 7).

(** [a >= b] on two dates. *)
Definition date_ge (a b : option Z) : bool :=
  match a, b with
  | Some x, Some y => y <=? x
  | _, _ => false
  end.

Definition thisWeekSessions (now : Z) (cs : list ChildProfile.t) : nat :=
  length
    (List.filter
       (fun session => date_ge (parseDate (TherapySession.date session)) (weekAgo now))
       (flat_map ChildProfile.sessionHistory cs)).

End Clock.

(** ** [TherapistLogForm] *)

Module TherapistLogForm.
(** Local state of the form. *)
Record t : Type := mk {
  date : jsstring;
  focus : jsstring;
  notes : jsstring;
  rating : Q;
  selectedGoalIds : list jsstring
}.

Definition toggleGoal (goalId : jsstring) (f : t) : t :=
  mk (date f) (focus f) (notes f) (rating f)
     (if includes (selectedGoalIds f) goalId
      then List.filter (fun i => negb (bool_decide (i = goalId))) (selectedGoalIds f)
      else selectedGoalIds f ++ [goalId]).

(** What a submit does: the payload passed to [onSubmit] when it is called,
    and the form afterwards. *)
Definition handleSubmit
    (child : ChildProfile.t) (th : TherapistProfile.t) (f : t)
  : option SessionPayload.t * t :=
  match selectedGoalIds f with
  | [] => (None, f)
  | _ :: _ =>
      (Some (SessionPayload.mk (ChildProfile.id child) (focus f) (notes f)
               (rating f) (date f) (selectedGoalIds f) (TherapistProfile.id th)),
       mk (date f) [] [] (rating f) (selectedGoalIds f))
  end.
End TherapistLogForm.

(** A submit of the form rendered by [Home], where [onSubmit] is
    [handleAddSession]: the state of [Home] afterwards. *)
Definition submitSessionForm
    (newId : jsstring) (child : ChildProfile.t) (th : TherapistProfile.t)
    (f : TherapistLogForm.t) (s : AppState) : AppState :=
  match fst (TherapistLogForm.handleSubmit child th f) with
  | Some p => handleAddSession newId p s
  | None => s
  end.

(** ** [DonorImpactPanel] *)

Module DonorImpactPanel.
Definition supportedChildren
    (d : DonorProfile.t) (childProfiles : list ChildProfile.t) : list ChildProfile.t :=
  List.filter (fun child => includes (DonorProfile.childIds d) (ChildProfile.id child))
              childProfiles.

(** Mean [current] of one child's goals, the inner [reduce] over its
    length. *)
Definition progress (child : ChildProfile.t) : jsnum :=
  js_div
    (Fin (fold_left (fun gSum goal => gSum + TherapyGoal.current goal)
                    (ChildProfile.therapyGoals child) 0))
    (Fin (len (ChildProfile.therapyGoals child))).

Definition averageProgress
    (d : DonorProfile.t) (childProfiles : list ChildProfile.t) : jsnum :=
  let supported := supportedChildren d childProfiles in
  match supported with
  | [] => Fin 0
  | _ :: _ =>
      Math_round
        (js_div
           (fold_left (fun sum child => js_add sum (progress child)) supported (Fin 0))
           (Fin (len supported)))
  end.
End DonorImpactPanel.

(** ** Events

    Everything a user can make the component do, and the state afterwards. *)

Inductive event : Type :=
| RoleSelect (role : RoleKey)
| TherapistChange (i : jsstring)
| ParentChange (i : jsstring)
| DonorChange (i : jsstring)
| ChildPick (i : jsstring)
| AddSession (newId : jsstring) (p : SessionPayload.t)
| AddFamilyUpdate (newId nowIso childId message : jsstring).

Section Machine.

Variable therapists : list TherapistProfile.t.
Variable parents : list ParentProfile.t.
Variable donors : list DonorProfile.t.

Definition step (e : event) (s : AppState) : outcome :=
  match e with
  | RoleSelect role => Done (handleRoleSelect therapists parents donors role s)
  | TherapistChange i => Done (handleTherapistChange therapists i s)
  | ParentChange i => Done (handleParentChange parents i s)
  | DonorChange i => Done (handleDonorChange donors i s)
  | ChildPick i => Done (set_selectedChildId i s)
  | AddSession newId p => Done (handleAddSession newId p s)
  | AddFamilyUpdate newId nowIso childId message =>
      handleAddFamilyUpdate newId nowIso childId message s
  end.

(** States the component reaches from [s0] by handling events; an event
    whose handler throws reaches nothing. *)
Inductive reachable (s0 : AppState) : AppState -> Prop :=
| reach_init : reachable s0 s0
| reach_step s e s' :
    reachable s0 s -> step e s = Done s' -> reachable s0 s'.

End Machine.

(** ** Vocabulary of the properties *)

(** [x] is the first element of [l] that has property [P]. *)
Definition first_such {A : Type} (P : A -> Prop) (l : list A) (x : A) : Prop :=
  exists l1 l2, l = l1 ++ x :: l2 /\ P x /\ Forall (fun y => ~ P y) l1.

(** Some child of the roster has identifier [i]. *)
Definition inRoster (cs : list ChildProfile.t) (i : jsstring) : Prop :=
  exists c, In c cs /\ ChildProfile.id c = i.

(** The status a goal carries is the one the goal engine computes from its
    [current] and [target]. *)
Definition consistent (g : TherapyGoal.t) : Prop :=
  TherapyGoal.status (updateGoalStatus g) = TherapyGoal.status g.

Definition rosterConsistent (cs : list ChildProfile.t) : Prop :=
  Forall (fun c => Forall consistent (ChildProfile.therapyGoals c)) cs.

(** The three-tier ratio rule, on a goal: the target is positive and, with
    [r] the ratio of [current] to [target], the status is [on_track] exactly
    when [r >= 0.80], [needs_support] exactly when [0.55 <= r < 0.80], and
    [at_risk] exactly when [r < 0.55]. *)
Definition followsRatioRule (g : TherapyGoal.t) : Prop :=
  0 < TherapyGoal.target g /\
  let r := TherapyGoal.current g / TherapyGoal.target g in
  (TherapyGoal.status g = on_track <-> 0.8 <= r) /\
  (TherapyGoal.status g = needs_support <-> 0.55 <= r /\ r < 0.8) /\
  (TherapyGoal.status g = at_risk <-> r < 0.55).

Definition rosterFollowsRatioRule (cs : list ChildProfile.t) : Prop :=
  Forall (fun c => Forall followsRatioRule (ChildProfile.therapyGoals c)) cs.

(** The three tiers of a finite ratio, as [updateGoalStatus] tests them. *)
Definition tier (r : Q) : TherapyStatus :=
  if Qle_bool 0.8 r then on_track
  else if Qle_bool 0.55 r then needs_support
  else at_risk.

(** [n] is [x] rounded to the nearest integer, a tie going up. *)
Definition nearest_half_up (x : Q) (n : Z) : Prop :=
  inject_Z n - 0.5 <= x /\ x < inject_Z n + 0.5.

Definition Qsum (l : list Q) : Q := fold_right Qplus 0 l.

(** Mean [current] of a child's goals. *)
Definition meanCurrent (c : ChildProfile.t) : Q :=
  Qsum (map TherapyGoal.current (ChildProfile.therapyGoals c))
  / len (ChildProfile.therapyGoals c).

(** Mean, over children, of each child's own mean. *)
Definition meanOfMeans (l : list ChildProfile.t) : Q :=
  Qsum (map meanCurrent l) / len l.

Section Visibility.

Variable parents : list ParentProfile.t.
Variable donors : list DonorProfile.t.

(** A child is visible under the current role: any child for the center;
    for a therapist the children whose therapist list names the active
    therapist; for a parent or donor the children whose identifier is in the
    child-id list of the active profile (the first profile of the list with
    the active identifier). *)
Definition visible (s : AppState) (c : ChildProfile.t) : Prop :=
  match selectedRole s with
  | center => True
  | therapist => In (selectedTherapistId s) (ChildProfile.therapists c)
  | parent =>
      exists p,
        first_such (fun q => ParentProfile.id q = selectedParentId s) parents p /\
        In (ChildProfile.id c) (ParentProfile.childIds p)
  | donor =>
      exists d,
        first_such (fun q => DonorProfile.id q = selectedDonorId s) donors d /\
        In (ChildProfile.id c) (DonorProfile.childIds d)
  end.

(** The test [filteredChildren] filters the roster by. *)
Definition visibleb (s : AppState) (c : ChildProfile.t) : bool :=
  match selectedRole s with
  | center => true
  | therapist => includes (ChildProfile.therapists c) (selectedTherapistId s)
  | parent =>
      optIncludes (option_map ParentProfile.childIds (selectedParent parents s))
                  (ChildProfile.id c)
  | donor =>
      optIncludes (option_map DonorProfile.childIds (selectedDonor donors s))
                  (ChildProfile.id c)
  end.

End Visibility.

Section CascadeActor.

Variable therapists : list TherapistProfile.t.
Variable parents : list ParentProfile.t.
Variable donors : list DonorProfile.t.

(** The child-id list of the actor an event switches to: for a switch to a
    role other than the center, the active actor of that role when the list
    of profiles still has it and the first profile otherwise; for a switch of
    actor, the profile with the identifier chosen.  [None] for the other
    events and when there is no such actor. *)
Definition cascadeActor (e : event) (s : AppState) : option (list jsstring) :=
  match e with
  | RoleSelect therapist =>
      option_map TherapistProfile.childIds
        (nullish (findTherapist therapists (selectedTherapistId s)) (head therapists))
  | RoleSelect parent =>
      option_map ParentProfile.childIds
        (nullish (findParent parents (selectedParentId s)) (head parents))
  | RoleSelect donor =>
      option_map DonorProfile.childIds
        (nullish (findDonor donors (selectedDonorId s)) (head donors))
  | TherapistChange i => option_map TherapistProfile.childIds (findTherapist therapists i)
  | ParentChange i => option_map ParentProfile.childIds (findParent parents i)
  | DonorChange i => option_map DonorProfile.childIds (findDonor donors i)
  | _ => None
  end.

End CascadeActor.

(** Seven days before [now] on the local clock: the instant at which the
    local clock read, seven calendar days earlier, what it reads at [now]. *)
Definition sevenDaysBefore (LocalTZA : Z -> bool -> Z) (now : Z) : Z :=
  UTC LocalTZA (LocalTime LocalTZA now - 7 * msPerDay)%Z.

(** Sessions of a roster dated at or after [cutoff], child by child; a
    session whose date is no date is not counted, and there is no upper
    limit. *)
Fixpoint sessionsSince
    (parseDate : jsstring -> option Z) (cutoff : Z) (sessions : list TherapySession.t)
  : nat :=
  match sessions with
  | [] => 0%nat
  | x :: rest =>
      match parseDate (TherapySession.date x) with
      | Some t => if (cutoff <=? t)%Z then S (sessionsSince parseDate cutoff rest)
                  else sessionsSince parseDate cutoff rest
      | None => sessionsSince parseDate cutoff rest
      end
  end.

Fixpoint rosterSessionsSince
    (parseDate : jsstring -> option Z) (cutoff : Z) (cs : list ChildProfile.t) : nat :=
  match cs with
  | [] => 0%nat
  | c :: rest =>
      (sessionsSince parseDate cutoff (ChildProfile.sessionHistory c)
       + rosterSessionsSince parseDate cutoff rest)%nat
  end.

(** ** The same tests on binary64

    [updateGoalStatus] and the increment as the engine evaluates them, on
    IEEE 754 doubles, for percentages and ratings that are whole numbers. *)

Module Binary64.

Import PrimFloat.

Definition of_nat (n : nat) : PrimFloat.float :=
  PrimFloat.of_uint63 (Uint63.of_Z (Z.of_nat n)).

(** The doubles nearest to 0.8 and 0.55, which is what the literals of the
    source denote. *)
Definition lit_0_8 : PrimFloat.float := 0x1.999999999999ap-1%float.
Definition lit_0_55 : PrimFloat.float := 0x1.199999999999ap-1%float.

Definition tier (current target : nat) : TherapyStatus :=
  let ratio := PrimFloat.div (of_nat current) (of_nat target) in
  if PrimFloat.leb lit_0_8 ratio then on_track
  else if PrimFloat.leb lit_0_55 ratio then needs_support
  else at_risk.

(** [Math.floor] for a double from 0 up to 2^51. *)
Definition floor (x : PrimFloat.float) : PrimFloat.float :=
  let r := PrimFloat.sub (PrimFloat.add x 0x1p52%float) 0x1p52%float in
  if PrimFloat.ltb x r then PrimFloat.sub r 1%float else r.

(** [Math.round((rating / 5) * 8)] *)
Definition increment (rating : nat) : PrimFloat.float :=
  floor (PrimFloat.add
           (PrimFloat.mul (PrimFloat.div (of_nat rating) 5%float) 8%float)
           0.5%float).

Definition status_eqb (a b : TherapyStatus) : bool :=
  match a, b with
  | on_track, on_track | needs_support, needs_support | at_risk, at_risk => true
  | _, _ => false
  end.

End Binary64.

(** ** Sample data *)

Module Sample.

Local Open Scope string_scope.

Definition goal (i : string) (cur tgt : Q) (st : TherapyStatus) : TherapyGoal.t :=
  TherapyGoal.mk (js i) (js "Communication") (js "Requests a break with words")
                 20 cur tgt st.

Definition session (i date : string) (goals : list string) : TherapySession.t :=
  TherapySession.mk (js i) (js date) (js "Turn taking") (map js goals) 4
                    (js "Good engagement") (js "t1").

Definition child
    (i : string) (ths : list string) (goals : list TherapyGoal.t)
    (history : list TherapySession.t) : ChildProfile.t :=
  ChildProfile.mk (js i) (js "Ava") 6 (js "ASD") (js "#f97316") (map js ths)
                  goals history [].

Definition therapistProfile (i : string) (cs : list string) : TherapistProfile.t :=
  TherapistProfile.mk (js i) (js "Dr. Lee") (js "SLP") (map js cs).

Definition parentProfile (i : string) (cs : list string) : ParentProfile.t :=
  ParentProfile.mk (js i) (js "Sam") (js "sam@example.org") (map js cs).

Definition donorProfile (i : string) (cs : list string) : DonorProfile.t :=
  DonorProfile.mk (js i) (js "Fund") 5000 (js "2025-01-01") [] (map js cs).

Definition state
    (cs : list ChildProfile.t) (role : RoleKey) (th pa dn ch : string) : AppState :=
  mkState cs role (js th) (js pa) (js dn) (js ch) ∅.

Definition payload
    (childId focus : string) (rating : Q) (goalIds : list string) : SessionPayload.t :=
  SessionPayload.mk (js childId) (js focus) (js "") rating (js "2025-03-12")
                    (map js goalIds) (js "t1").

(** One child with one goal, no session yet. *)
Definition c1 : ChildProfile.t := child "c1" ["t1"] [goal "g1" 90 100 on_track] [].
Definition c2 : ChildProfile.t := child "c2" ["t1"] [goal "g2" 30 100 at_risk] [].
Definition c5 : ChildProfile.t := child "c5" ["t2"] [goal "g5" 60 100 needs_support] [].

(** A child seen by therapist [t2] only. *)
Definition c3 : ChildProfile.t := child "c3" ["t2"] [goal "g3" 50 80 needs_support] [].

(** A child whose identifier is the empty string. *)
Definition c0 : ChildProfile.t := child "" ["t1"] [] [].

(** A child without goals. *)
Definition c4 : ChildProfile.t := child "c4" ["t1"] [] [].

(** The dashboard as it starts: the center's view, first child selected. *)
Definition start (cs : list ChildProfile.t) : AppState :=
  mkState cs center (js "t1") (js "p1") (js "d1") (firstChildId cs) ∅.

(** A form whose goal selection was emptied. *)
Definition emptyGoalForm : TherapistLogForm.t :=
  TherapistLogForm.mk (js "2025-03-12") (js "Play skills") [] 3 [].

(** Sessions dated a week before, eleven days before and years after
    2025-03-12, and one whose date is no date. *)
Definition c6 : ChildProfile.t :=
  child "c6" ["t1"] [goal "g6" 40 100 at_risk]
        [session "s1" "2025-03-05" ["g6"]; session "s2" "2025-03-01" ["g6"];
         session "s3" "2030-01-01" ["g6"]; session "s4" "soon" ["g6"]].

(** A host on UTC that reads dates of the form [YYYY-MM-DD] by a small
    table; months are not needed since [DayOfMonthStart] is constant. *)
Definition parseDate (text : jsstring) : option Z :=
  if bool_decide (text = js "2025-03-05") then Some 1741132800000%Z
  else if bool_decide (text = js "2025-03-01") then Some 1740787200000%Z
  else if bool_decide (text = js "2030-01-01") then Some 1893456000000%Z
  else None.

Definition utcZone (t : Z) (isUTC : bool) : Z := 0%Z.

Definition noCalendar (t : Z) : Z := 0%Z.

Definition noMonths (year month : Z) : Z := 0%Z.

(** 2025-03-12T00:00:00Z *)
Definition march12 : Z := 1741737600000%Z.

(** A zone that is one hour ahead of UTC before [1741500000000] and two
    hours ahead from then on. *)
Definition dstZone (t : Z) (isUTC : bool) : Z :=
  if (t <? 1741500000000)%Z then 3600000%Z else 7200000%Z.

End Sample.

(** ** Further parts of the component *)

(** [useState] initial values of [Home]: the center's view, the first
    profile of each kind and the first child active, no family update. *)
Definition initialState
    (therapists : list TherapistProfile.t) (parents : list ParentProfile.t)
    (donors : list DonorProfile.t) (cs : list ChildProfile.t) : AppState :=
  mkState cs center
    (match therapists with t :: _ => TherapistProfile.id t | [] => [] end)
    (match parents with p :: _ => ParentProfile.id p | [] => [] end)
    (match donors with d :: _ => DonorProfile.id d | [] => [] end)
    (firstChildId cs)
    ∅.

(** What the rendered page lets a user do in a state: the child badges are
    those of [filteredChildren], so a pick names one of them; the other
    events are not restricted here. *)
Definition offered
    (parents : list ParentProfile.t) (donors : list DonorProfile.t)
    (s : AppState) (e : event) : Prop :=
  match e with
  | ChildPick i =>
      exists c, In c (filteredChildren parents donors s) /\ ChildProfile.id c = i
  | _ => True
  end.

Section Page.

Variable therapists : list TherapistProfile.t.
Variable parents : list ParentProfile.t.
Variable donors : list DonorProfile.t.

(** States reached from [s0] through the rendered page. *)
Inductive pageReachable (s0 : AppState) : AppState -> Prop :=
| page_init : pageReachable s0 s0
| page_step s e s' :
    pageReachable s0 s ->
    offered parents donors s e ->
    step therapists parents donors e s = Done s' ->
    pageReachable s0 s'.

End Page.

(** Order of the three tiers, worst first. *)
Definition statusRank (st : TherapyStatus) : nat :=
  match st with
  | at_risk => 0
  | needs_support => 1
  | on_track => 2
  end.

(** What no event changes in a goal, and in a child. *)
Definition goalFrame (g : TherapyGoal.t) : jsstring * jsstring * jsstring * Q * Q :=
  (TherapyGoal.id g, TherapyGoal.category g, TherapyGoal.description g,
   TherapyGoal.baseline g, TherapyGoal.target g).

Definition childFrame (c : ChildProfile.t)
  : jsstring * jsstring * Q * jsstring * jsstring * list jsstring
    * list UpcomingSession.t * list (jsstring * jsstring * jsstring * Q * Q) :=
  (ChildProfile.id c, ChildProfile.name c, ChildProfile.age c,
   ChildProfile.diagnosis c, ChildProfile.avatarColor c, ChildProfile.therapists c,
   ChildProfile.upcomingSessions c, map goalFrame (ChildProfile.therapyGoals c)).

(** *** [GoalProgressBar] *)

Definition js_mul (a b : jsnum) : jsnum :=
  match a, b with
  | NaN, _ | _, NaN => NaN
  | Fin x, Fin y => Fin (x * y)
  | Fin x, PosInf | PosInf, Fin x =>
      match Qsign x with Eq => NaN | Gt => PosInf | Lt => NegInf end
  | Fin x, NegInf | NegInf, Fin x =>
      match Qsign x with Eq => NaN | Gt => NegInf | Lt => PosInf end
  | PosInf, PosInf | NegInf, NegInf => PosInf
  | PosInf, NegInf | NegInf, PosInf => NegInf
  end.

(** [Math.min] of two numbers. *)
Definition Math_min (a b : jsnum) : jsnum :=
  match a, b with
  | NaN, _ | _, NaN => NaN
  | NegInf, _ | _, NegInf => NegInf
  | PosInf, x | x, PosInf => x
  | Fin x, Fin y => Fin (Qmin x y)
  end.

Module GoalProgressBar.
(** [Math.min(100, Math.round((goal.current / goal.target) * 100))] *)
Definition percent (goal : TherapyGoal.t) : jsnum :=
  Math_min (Fin 100)
    (Math_round
       (js_mul (js_div (Fin (TherapyGoal.current goal)) (Fin (TherapyGoal.target goal)))
               (Fin 100))).
End GoalProgressBar.

(** *** [TherapistLogForm], from mount to submit *)

Module LogFormSession.

(** State of a form as mounted: [today] is
    [new Date().toISOString().slice(0, 10)]. *)
Definition initial (today : jsstring) (child : ChildProfile.t) : TherapistLogForm.t :=
  TherapistLogForm.mk today [] [] 3
    (map TherapyGoal.id (firstn 2 (ChildProfile.therapyGoals child))).

(** The inputs of the form.  The goal chips are those of the child's goals;
    the score is a range input from 1 to 5 in steps of 1. *)
Inductive input : Type :=
| SetDate (v : jsstring)
| SetFocus (v : jsstring)
| SetNotes (v : jsstring)
| SetRating (r : Z)
| ToggleGoal (goalId : jsstring).

Definition apply (i : input) (f : TherapistLogForm.t) : TherapistLogForm.t :=
  match i with
  | SetDate v =>
      TherapistLogForm.mk v (TherapistLogForm.focus f) (TherapistLogForm.notes f)
        (TherapistLogForm.rating f) (TherapistLogForm.selectedGoalIds f)
  | SetFocus v =>
      TherapistLogForm.mk (TherapistLogForm.date f) v (TherapistLogForm.notes f)
        (TherapistLogForm.rating f) (TherapistLogForm.selectedGoalIds f)
  | SetNotes v =>
      TherapistLogForm.mk (TherapistLogForm.date f) (TherapistLogForm.focus f) v
        (TherapistLogForm.rating f) (TherapistLogForm.selectedGoalIds f)
  | SetRating r =>
      TherapistLogForm.mk (TherapistLogForm.date f) (TherapistLogForm.focus f)
        (TherapistLogForm.notes f) (inject_Z r) (TherapistLogForm.selectedGoalIds f)
  | ToggleGoal goalId => TherapistLogForm.toggleGoal goalId f
  end.

(** An input the rendered form can produce for [child]. *)
Definition rendered (child : ChildProfile.t) (i : input) : Prop :=
  match i with
  | SetRating r => (1 <= r <= 5)%Z
  | ToggleGoal goalId => In goalId (map TherapyGoal.id (ChildProfile.therapyGoals child))
  | _ => True
  end.

(** Form states between mount and unmount; a submit that goes through
    leaves the form with its texts cleared. *)
Inductive reached (today : jsstring) (child : ChildProfile.t)
  : TherapistLogForm.t -> Prop :=
| reached_mount : reached today child (initial today child)
| reached_input f i :
    reached today child f -> rendered child i -> reached today child (apply i f)
| reached_submit f th :
    reached today child f ->
    reached today child (snd (TherapistLogForm.handleSubmit child th f)).

End LogFormSession.

(** *** [ParentUpdatePanel] *)

Module ParentUpdatePanel.
(** A submit: [onSubmit(child.id, message)] with [onSubmit] being
    [handleAddFamilyUpdate], then the text area is cleared. *)
Definition handleSubmit
    (newId nowIso : jsstring) (child : ChildProfile.t) (message : jsstring)
    (s : AppState) : outcome * jsstring :=
  (handleAddFamilyUpdate newId nowIso (ChildProfile.id child) message s, []).

(** [familyUpdates[resolvedChild.id] ?? []], the list the panel shows;
    [None] when the lookup finds an inherited property instead of a list. *)
Definition updates (child : ChildProfile.t) (s : AppState)
  : option (list FamilyUpdate.t) :=
  match familyUpdates s !! ChildProfile.id child with
  | Some l => Some l
  | None =>
      if includes objectPrototypeKeys (ChildProfile.id child) then None else Some []
  end.
End ParentUpdatePanel.

(** One submit after the other; [posts] gives, for each, the id and the time
    the host produced and the text typed. *)
Fixpoint postUpdates
    (posts : list (jsstring * jsstring * jsstring)) (child : ChildProfile.t)
    (s : AppState) : outcome :=
  match posts with
  | [] => Done s
  | (newId, nowIso, message) :: rest =>
      match fst (ParentUpdatePanel.handleSubmit newId nowIso child message s) with
      | Done s' => postUpdates rest child s'
      | TypeError => TypeError
      end
  end.

(** The entries a list of posts leaves, oldest first: one per text that is
    not blank. *)
Definition postedEntries
    (posts : list (jsstring * jsstring * jsstring)) : list FamilyUpdate.t :=
  map (fun '(newId, nowIso, message) => FamilyUpdate.mk newId (trim message) nowIso)
      (List.filter (fun '(_, _, message) => truthy (trim message)) posts).

(** The active actor id of a role, and the role an event is about. *)
Definition actorIdOf (role : RoleKey) (s : AppState) : jsstring :=
  match role with
  | therapist => selectedTherapistId s
  | parent => selectedParentId s
  | donor => selectedDonorId s
  | center => []
  end.

Definition eventRole (e : event) : option RoleKey :=
  match e with
  | RoleSelect role => Some role
  | TherapistChange _ => Some therapist
  | ParentChange _ => Some parent
  | DonorChange _ => Some donor
  | _ => None
  end.

Section Actors.

Variable therapists : list TherapistProfile.t.
Variable parents : list ParentProfile.t.
Variable donors : list DonorProfile.t.

(** The list of profiles of a role has a profile with identifier [i]. *)
Definition actorExists (role : RoleKey) (i : jsstring) : Prop :=
  match role with
  | therapist => exists a, In a therapists /\ TherapistProfile.id a = i
  | parent => exists a, In a parents /\ ParentProfile.id a = i
  | donor => exists a, In a donors /\ DonorProfile.id a = i
  | center => False
  end.

(** The role has at least one profile. *)
Definition hasActors (role : RoleKey) : Prop :=
  match role with
  | therapist => therapists <> []
  | parent => parents <> []
  | donor => donors <> []
  | center => False
  end.

End Actors.

(** The history of [c] is the history of [c0] with records added in front. *)
Definition historyGrew (c0 c : ChildProfile.t) : Prop :=
  exists added,
    ChildProfile.sessionHistory c = added ++ ChildProfile.sessionHistory c0.

(** Number of children of a roster with identifier [i]. *)
Definition childrenWithId (cs : list ChildProfile.t) (i : jsstring) : nat :=
  length (List.filter (fun c => bool_decide (ChildProfile.id c = i)) cs).

(** [current] does not exceed [target]. *)
Definition capped (g : TherapyGoal.t) : Prop :=
  TherapyGoal.current g <= TherapyGoal.target g.

Definition rosterCapped (cs : list ChildProfile.t) : Prop :=
  Forall (fun c => Forall capped (ChildProfile.therapyGoals c)) cs.

(** A session record as [handleAddSession] stores it: focus and notes are
    not empty and carry no white space at either end. *)
Definition tidySession (x : TherapySession.t) : Prop :=
  TherapySession.focus x <> [] /\ trim (TherapySession.focus x) = TherapySession.focus x /\
  TherapySession.notes x <> [] /\ trim (TherapySession.notes x) = TherapySession.notes x.

Definition rosterTidy (cs : list ChildProfile.t) : Prop :=
  Forall (fun c => Forall tidySession (ChildProfile.sessionHistory c)) cs.

(** *** The role panel of [Home]

    What the fourth panel renders: the session form for a therapist with an
    active profile and a child on display, the family notes for a parent
    likewise, the donor panel for a donor with an active profile, the
    highlights for the center, and nothing otherwise. *)
Inductive rolePanel : Type :=
| LogFormPanel (child : ChildProfile.t) (th : TherapistProfile.t)
| ParentPanel (child : ChildProfile.t) (pa : ParentProfile.t)
| DonorPanel (d : DonorProfile.t) (childProfiles : list ChildProfile.t)
| HighlightsPanel
| NoPanel.

Section RolePanel.

Variable therapists : list TherapistProfile.t.
Variable parents : list ParentProfile.t.
Variable donors : list DonorProfile.t.

Definition selectedTherapist (s : AppState) : option TherapistProfile.t :=
  findTherapist therapists (selectedTherapistId s).

Definition roleContent (s : AppState) : rolePanel :=
  match selectedRole s with
  | therapist =>
      match selectedTherapist s, resolvedChild parents donors s with
      | Some th, Some child => LogFormPanel child th
      | _, _ => NoPanel
      end
  | parent =>
      match resolvedChild parents donors s, selectedParent parents s with
      | Some child, Some pa => ParentPanel child pa
      | _, _ => NoPanel
      end
  | donor =>
      match selectedDonor donors s with
      | Some d => DonorPanel d (children s)
      | None => NoPanel
      end
  | center => HighlightsPanel
  end.

End RolePanel.

(** * Properties *)

(** ** Lists: [find], [filter], [includes] *)

Lemma find_first_such {A : Type} (f : A -> bool) (l : list A) (x : A) :
  find f l = Some x <-> first_such (fun y => f y = true) l x.
Proof.
  split.
  - induction l as [|a l IH]; simpl; [discriminate|].
    destruct (f a) eqn:Ha.
    + intros [= <-]. exists [], l. repeat split; auto.
    + intros H. destruct (IH H) as (l1 & l2 & -> & Hx & Hl1).
      exists (a :: l1), l2. repeat split; auto.
      constructor; [congruence | exact Hl1].
  - intros (l1 & l2 & -> & Hx & Hl1).
    induction l1 as [|a l1 IH]; simpl.
    + now rewrite Hx.
    + inversion Hl1 as [|? ? Ha Hrest]; subst.
      destruct (f a); [congruence | auto].
Qed.

Lemma find_None_iff {A : Type} (f : A -> bool) (l : list A) :
  find f l = None <-> (forall y, In y l -> f y = false).
Proof.
  induction l as [|a l IH]; simpl.
  - split; [intros _ y [] | reflexivity].
  - destruct (f a) eqn:Ha.
    + split; [discriminate | intros H; specialize (H a (or_introl eq_refl)); congruence].
    + rewrite IH. split.
      * intros H y [<- | Hy]; auto.
      * intros H y Hy. apply H. now right.
Qed.

Lemma head_filter_find {A : Type} (f : A -> bool) (l : list A) :
  head (List.filter f l) = find f l.
Proof.
  induction l as [|a l IH]; simpl; [reflexivity|].
  destruct (f a); [reflexivity | exact IH].
Qed.

Lemma first_such_ext {A : Type} (P R : A -> Prop) (l : list A) (x : A) :
  (forall y, P y <-> R y) -> first_such P l x -> first_such R l x.
Proof.
  intros HPR (l1 & l2 & -> & Hx & Hl1).
  exists l1, l2. repeat split; [now apply HPR|].
  eapply Forall_impl; [exact Hl1|]. intros y Hy HR. apply Hy. now apply HPR.
Qed.

Lemma first_such_unique {A : Type} (P : A -> Prop) (l : list A) (x y : A) :
  first_such P l x -> first_such P l y -> x = y.
Proof.
  intros (l1 & l2 & -> & Hx & Hl1). revert y.
  induction l1 as [|a l1 IH]; simpl; intros y (k1 & k2 & Hk & Hy & Hk1).
  - destruct k1 as [|b k1]; simpl in Hk; [congruence|].
    injection Hk as <- _. inversion Hk1; subst. contradiction.
  - inversion Hl1 as [|? ? Ha Hrest]; subst.
    destruct k1 as [|b k1]; simpl in Hk.
    + injection Hk as -> _. contradiction.
    + injection Hk as <- Hk. inversion Hk1; subst.
      apply IH; [assumption|]. exists k1, k2. auto.
Qed.

(** Both directions between the first element passing a [bool_decide] test
    and the first element with the property tested. *)
Ltac first_such_reflect :=
  split; apply first_such_ext; intros ?; rewrite bool_decide_eq_true; tauto.

Lemma includes_In (xs : list jsstring) (x : jsstring) :
  includes xs x = true <-> In x xs.
Proof.
  unfold includes. rewrite existsb_exists. split.
  - intros (y & Hy & Heq). apply bool_decide_eq_true in Heq. now subst.
  - intros H. exists x. split; [assumption | now apply bool_decide_eq_true].
Qed.

Lemma includes_nil (x : jsstring) : includes [] x = false.
Proof. reflexivity. Qed.

Lemma hasChild_inRoster (cs : list ChildProfile.t) (i : jsstring) :
  hasChild cs i = true <-> inRoster cs i.
Proof.
  unfold hasChild, inRoster. rewrite existsb_exists.
  split; intros (c & Hc & Hi); exists c; split; auto.
  - now apply bool_decide_eq_true in Hi.
  - now apply bool_decide_eq_true.
Qed.

Lemma map_id_on {A : Type} (f : A -> A) (l : list A) :
  (forall x, In x l -> f x = x) -> map f l = l.
Proof.
  induction l as [|a l IH]; simpl; intros H; [reflexivity|].
  rewrite H by now left. rewrite IH; [reflexivity|].
  intros x Hx. apply H. now right.
Qed.

(** ** Strings: a text of white space only is blank *)

Lemma trimStart_whitespace (s : jsstring) :
  Forall (fun c => isWhiteSpace c = true) s -> trimStart s = [].
Proof.
  induction 1 as [|c s Hc _ IH]; simpl; [reflexivity|]. now rewrite Hc.
Qed.

Lemma trim_whitespace (s : jsstring) :
  Forall (fun c => isWhiteSpace c = true) s -> trim s = [].
Proof.
  intros H. unfold trim. now rewrite (trimStart_whitespace s H).
Qed.

Lemma truthy_false (s : jsstring) : truthy s = false <-> s = [].
Proof. destruct s; simpl; split; congruence. Qed.

(** ** Session logging: what stays as it was *)

Lemma set_children_same (s : AppState) : set_children (children s) s = s.
Proof. now destruct s. Qed.

Lemma addSessionToChild_other
    (session : TherapySession.t) (p : SessionPayload.t) (c : ChildProfile.t) :
  ChildProfile.id c <> SessionPayload.childId p ->
  addSessionToChild session p c = c.
Proof.
  intros Hne. unfold addSessionToChild.
  now rewrite bool_decide_eq_false_2.
Qed.

Lemma addSessionToChild_target
    (session : TherapySession.t) (p : SessionPayload.t) (c : ChildProfile.t) :
  ChildProfile.id c = SessionPayload.childId p ->
  addSessionToChild session p c =
  ChildProfile.with_goals_history
    (map (advanceGoal p) (ChildProfile.therapyGoals c))
    (session :: ChildProfile.sessionHistory c) c.
Proof.
  intros Heq. unfold addSessionToChild.
  now rewrite bool_decide_eq_true_2.
Qed.

Lemma handleAddSession_nonblank
    (newId : jsstring) (p : SessionPayload.t) (s : AppState) :
  truthy (trim (SessionPayload.focus p)) = true ->
  handleAddSession newId p s =
  set_children (map (addSessionToChild (buildSession newId p) p) (children s)) s.
Proof. intros H. unfold handleAddSession. now rewrite H. Qed.

Lemma advanceGoal_not_included (p : SessionPayload.t) (g : TherapyGoal.t) :
  ~ In (TherapyGoal.id g) (SessionPayload.goalIds p) -> advanceGoal p g = g.
Proof.
  intros Hn. unfold advanceGoal.
  destruct (includes _ _) eqn:E; [|reflexivity].
  apply includes_In in E. contradiction.
Qed.

Lemma advanceGoal_included (p : SessionPayload.t) (g : TherapyGoal.t) :
  In (TherapyGoal.id g) (SessionPayload.goalIds p) ->
  advanceGoal p g =
  reclassify g (TherapyGoal.current g + increment (SessionPayload.rating p)).
Proof.
  intros Hin. unfold advanceGoal.
  apply includes_In in Hin. now rewrite Hin.
Qed.

(** C8. A required text that is blank after trimming makes the operation a
    no-op: with such a focus [handleAddSession] returns the state it was
    given, and with such a message [handleAddFamilyUpdate] completes (it
    does not throw) with the state it was given; roster and family updates
    are the same and no record was created. *)
Theorem C8_blank_text_is_noop (text : jsstring) :
  trim text = [] ->
  (forall newId p s,
      SessionPayload.focus p = text -> handleAddSession newId p s = s) /\
  (forall newId nowIso childId s,
      handleAddFamilyUpdate newId nowIso childId text s = Done s).
Proof.
  intros Hblank. split.
  - intros newId p s Hf. unfold handleAddSession. now rewrite Hf, Hblank.
  - intros newId nowIso childId s. unfold handleAddFamilyUpdate. now rewrite Hblank.
Qed.

Lemma C8_blank_text_is_noop_witness :
  trim (js "  ") = [] /\
  (forall newId p s,
      SessionPayload.focus p = js "  " -> handleAddSession newId p s = s) /\
  (forall newId nowIso childId s,
      handleAddFamilyUpdate newId nowIso childId (js "  ") s = Done s).
Proof.
  split; [reflexivity | apply (C8_blank_text_is_noop (js "  ")); reflexivity].
Defined.

(** C10. With a focus that is not blank and a child id that no child of the
    roster has, [handleAddSession] returns the state it was given: the
    session is attached nowhere. *)
Theorem C10_unknown_child_is_noop
    (newId : jsstring) (p : SessionPayload.t) (s : AppState) :
  trim (SessionPayload.focus p) <> [] ->
  ~ inRoster (children s) (SessionPayload.childId p) ->
  handleAddSession newId p s = s.
Proof.
  intros Hfocus Hunknown.
  rewrite handleAddSession_nonblank.
  - rewrite map_id_on; [apply set_children_same|].
    intros c Hc. apply addSessionToChild_other.
    intros Heq. apply Hunknown. now exists c.
  - destruct (trim (SessionPayload.focus p)); [contradiction | reflexivity].
Qed.

Lemma C10_unknown_child_is_noop_witness :
  let s := Sample.state [Sample.c1; Sample.c2] therapist "t1" "p1" "d1" "c1" in
  let p := Sample.payload "c9" "Play skills" 3 ["g1"%string] in
  handleAddSession (js "s-new") p s = s.
Proof.
  apply C10_unknown_child_is_noop.
  - vm_compute. discriminate.
  - intros (c & Hc & Hid). vm_compute in Hc, Hid.
    destruct Hc as [<- | [<- | []]]; discriminate Hid.
Defined.

(** [handleAddSession] with an empty goal list: no goal moves. *)
Lemma advanceGoal_no_goals (p : SessionPayload.t) (g : TherapyGoal.t) :
  SessionPayload.goalIds p = [] -> advanceGoal p g = g.
Proof.
  intros Hnil. apply advanceGoal_not_included. rewrite Hnil. intros [].
Qed.

(** C1, as stated, fails on [handleAddSession]: called with an empty goal-id
    list and a focus that is not blank for a child of the roster, it changes
    the state, the child's history now holding the new session. *)
Lemma C1_counterexample :
  let s := Sample.state [Sample.c1] therapist "t1" "p1" "d1" "c1" in
  let p := Sample.payload "c1" "Play skills" 3 [] in
  SessionPayload.goalIds p = [] /\
  trim (SessionPayload.focus p) <> [] /\
  handleAddSession (js "s-new") p s <> s /\
  map ChildProfile.sessionHistory (children (handleAddSession (js "s-new") p s))
  = [[buildSession (js "s-new") p]].
Proof.
  repeat split.
  - vm_compute. discriminate.
  - intros H. apply (f_equal (fun st => map ChildProfile.sessionHistory (children st))) in H.
    vm_compute in H. discriminate H.
Qed.

(** C1, amended. The empty goal selection is turned away by the form, not by
    [handleAddSession]: a submit of [TherapistLogForm] with no goal selected
    does not call [onSubmit], so the state of [Home] (roster included) is the
    same afterwards and no session record exists.  [handleAddSession] itself
    does not look at the length of the list: given the same fields with a
    focus that is not blank, it leaves the goals and upcoming sessions of
    every child and every child with another id as they were, and prepends
    the session record to the history of the children with that id. *)
Theorem C1_empty_goal_selection
    (newId : jsstring) (child : ChildProfile.t) (th : TherapistProfile.t)
    (f : TherapistLogForm.t) (s : AppState) :
  TherapistLogForm.selectedGoalIds f = [] ->
  submitSessionForm newId child th f s = s /\
  fst (TherapistLogForm.handleSubmit child th f) = None /\
  (trim (TherapistLogForm.focus f) <> [] ->
   let p := SessionPayload.mk (ChildProfile.id child) (TherapistLogForm.focus f)
              (TherapistLogForm.notes f) (TherapistLogForm.rating f)
              (TherapistLogForm.date f) [] (TherapistProfile.id th) in
   handleAddSession newId p s =
   set_children
     (map (fun c =>
             if bool_decide (ChildProfile.id c = ChildProfile.id child)
             then ChildProfile.with_goals_history
                    (ChildProfile.therapyGoals c)
                    (buildSession newId p :: ChildProfile.sessionHistory c) c
             else c)
          (children s)) s).
Proof.
  intros Hnil. unfold submitSessionForm, TherapistLogForm.handleSubmit.
  rewrite Hnil. simpl. repeat split.
  intros Hfocus. rewrite handleAddSession_nonblank.
  - f_equal. apply map_ext. intros c. unfold addSessionToChild. simpl.
    destruct (bool_decide _); simpl; [|reflexivity].
    f_equal. apply map_id_on. intros g _. now apply advanceGoal_no_goals.
  - simpl. destruct (trim (TherapistLogForm.focus f)); [contradiction | reflexivity].
Qed.

Lemma C1_empty_goal_selection_witness :
  let s := Sample.state [Sample.c1] therapist "t1" "p1" "d1" "c1" in
  submitSessionForm (js "s-new") Sample.c1 (Sample.therapistProfile "t1" ["c1"%string])
                    Sample.emptyGoalForm s = s.
Proof.
  apply (C1_empty_goal_selection (js "s-new") Sample.c1
           (Sample.therapistProfile "t1" ["c1"%string]) Sample.emptyGoalForm).
  reflexivity.
Defined.

(** ** The goal engine *)

Lemma js_div_pos (c t : Q) : 0 < t -> js_div (Fin c) (Fin t) = Fin (c / t).
Proof.
  intros Ht. unfold js_div, Qsign.
  assert (E : (t ?= 0) = Gt) by now apply Qgt_alt.
  now rewrite E.
Qed.

Lemma updateGoalStatus_tier (g : TherapyGoal.t) :
  0 < TherapyGoal.target g ->
  TherapyGoal.status (updateGoalStatus g)
  = tier (TherapyGoal.current g / TherapyGoal.target g).
Proof.
  intros Ht. unfold updateGoalStatus. rewrite (js_div_pos _ _ Ht). reflexivity.
Qed.

Lemma tier_on_track (r : Q) : tier r = on_track <-> 0.8 <= r.
Proof.
  unfold tier. destruct (Qle_bool 0.8 r) eqn:E.
  - apply Qle_bool_iff in E. tauto.
  - split; [destruct (Qle_bool 0.55 r); discriminate|].
    intros H. apply Qle_bool_iff in H. congruence.
Qed.

Lemma Qle_bool_false (x y : Q) : Qle_bool x y = false <-> y < x.
Proof.
  split.
  - intros E. apply Qnot_le_lt. intros H. apply Qle_bool_iff in H. congruence.
  - intros H. destruct (Qle_bool x y) eqn:E; [|reflexivity].
    apply Qle_bool_iff in E. exfalso. now apply (Qlt_not_le y x).
Qed.

Lemma tier_needs_support (r : Q) :
  tier r = needs_support <-> 0.55 <= r /\ r < 0.8.
Proof.
  unfold tier. destruct (Qle_bool 0.8 r) eqn:E1.
  - apply Qle_bool_iff in E1. split; [discriminate|].
    intros [_ H]. exfalso. now apply (Qlt_not_le r 0.8).
  - apply Qle_bool_false in E1. destruct (Qle_bool 0.55 r) eqn:E2.
    + apply Qle_bool_iff in E2. tauto.
    + apply Qle_bool_false in E2. split; [discriminate|].
      intros [H _]. exfalso. now apply (Qlt_not_le r 0.55).
Qed.

Lemma tier_at_risk (r : Q) : tier r = at_risk <-> r < 0.55.
Proof.
  unfold tier. destruct (Qle_bool 0.8 r) eqn:E1.
  - apply Qle_bool_iff in E1. split; [discriminate|].
    intros H. exfalso. apply (Qlt_not_le r 0.8); [|assumption].
    eapply Qlt_trans; [exact H | reflexivity].
  - destruct (Qle_bool 0.55 r) eqn:E2.
    + apply Qle_bool_iff in E2. split; [discriminate|].
      intros H. exfalso. now apply (Qlt_not_le r 0.55).
    + apply Qle_bool_false in E2. tauto.
Qed.

(** C5. For a goal with a positive target, [reclassify] puts [current] at
    the smaller of the target and the new value, leaves identifier, category,
    description, baseline and target as they were, and sets the status by the
    ratio [r] of the new [current] to the target: [on_track] exactly when
    [r >= 0.80], [needs_support] exactly when [0.55 <= r < 0.80], [at_risk]
    exactly when [r < 0.55].  Being a function, it gives one result per
    input. *)
Theorem C5_reclassify (g : TherapyGoal.t) (newCurrent : Q) :
  0 < TherapyGoal.target g ->
  let g' := reclassify g newCurrent in
  let r := TherapyGoal.current g' / TherapyGoal.target g' in
  TherapyGoal.current g' = Qmin (TherapyGoal.target g) newCurrent /\
  (TherapyGoal.id g' = TherapyGoal.id g /\
   TherapyGoal.category g' = TherapyGoal.category g /\
   TherapyGoal.description g' = TherapyGoal.description g /\
   TherapyGoal.baseline g' = TherapyGoal.baseline g /\
   TherapyGoal.target g' = TherapyGoal.target g) /\
  (TherapyGoal.status g' = on_track <-> 0.8 <= r) /\
  (TherapyGoal.status g' = needs_support <-> 0.55 <= r /\ r < 0.8) /\
  (TherapyGoal.status g' = at_risk <-> r < 0.55).
Proof.
  intros Ht g' r.
  assert (Hst : TherapyGoal.status g' = tier r).
  { unfold g', reclassify. rewrite updateGoalStatus_tier by exact Ht. reflexivity. }
  split; [reflexivity|]. split; [repeat split|].
  rewrite Hst. split; [apply tier_on_track|].
  split; [apply tier_needs_support | apply tier_at_risk].
Qed.

(** The example of the specification: target 100, progress 90, a session
    rated 5 adds 8, which gives 98 and [on_track]. *)
Lemma C5_reclassify_witness :
  let g := Sample.goal "g1" 90 100 on_track in
  let g' := reclassify g (90 + increment 5) in
  TherapyGoal.current g' = Qmin 100 (90 + increment 5) /\
  (TherapyGoal.status g' = on_track <-> 0.8 <= TherapyGoal.current g' / TherapyGoal.target g').
Proof.
  pose proof (C5_reclassify (Sample.goal "g1" 90 100 on_track) (90 + increment 5)) as H.
  simpl in H. destruct H as (Hc & _ & Ho & _); [reflexivity|].
  split; [exact Hc | exact Ho].
Defined.

Example reclassify_spec_example :
  let g' := reclassify (Sample.goal "g1" 90 100 on_track) (90 + increment 5) in
  increment 5 = 8 /\ Qeq (TherapyGoal.current g') 98 /\ TherapyGoal.status g' = on_track.
Proof. repeat split. Qed.

(** Boundaries: a ratio of exactly 0.80 is [on_track] and one of exactly
    0.55 is [needs_support]. *)
Example reclassify_boundaries :
  TherapyGoal.status (reclassify (Sample.goal "g" 0 100 at_risk) 80) = on_track /\
  TherapyGoal.status (reclassify (Sample.goal "g" 0 100 at_risk) 55) = needs_support /\
  TherapyGoal.status (reclassify (Sample.goal "g" 0 20 at_risk) 11) = needs_support /\
  TherapyGoal.status (reclassify (Sample.goal "g" 0 5 at_risk) 4) = on_track.
Proof. repeat split. Qed.

(** On whole percentages up to 200 the doubles put every goal in the tier
    the exact ratio gives, a target of 0 included. *)
Example binary64_tier_agrees :
  forallb
    (fun target =>
       forallb
         (fun current =>
            Binary64.status_eqb
              (Binary64.tier current target)
              (TherapyGoal.status
                 (updateGoalStatus
                    (TherapyGoal.mk [] [] [] 0 (len (repeat tt current))
                                    (len (repeat tt target)) at_risk))))
         (seq 0 201))
    (seq 0 201)
  = true.
Proof. vm_compute. reflexivity. Qed.

(** On the ratings 1 to 5 the doubles give the increments of the exact
    computation. *)
Example binary64_increment_agrees :
  map Binary64.increment [1; 2; 3; 4; 5]%nat
  = map Binary64.of_nat [2; 3; 5; 6; 8]%nat.
Proof. vm_compute. reflexivity. Qed.

(** ** The status invariant *)

Lemma updateGoalStatus_idem (g : TherapyGoal.t) :
  updateGoalStatus (updateGoalStatus g) = updateGoalStatus g.
Proof. reflexivity. Qed.

Lemma consistent_updateGoalStatus (g : TherapyGoal.t) :
  consistent (updateGoalStatus g).
Proof. unfold consistent. now rewrite updateGoalStatus_idem. Qed.

Lemma consistent_reclassify (g : TherapyGoal.t) (c : Q) : consistent (reclassify g c).
Proof. apply consistent_updateGoalStatus. Qed.

Lemma consistent_advanceGoal (p : SessionPayload.t) (g : TherapyGoal.t) :
  consistent g -> consistent (advanceGoal p g).
Proof.
  intros Hg. unfold advanceGoal.
  destruct (negb _); [exact Hg | apply consistent_reclassify].
Qed.

Lemma rosterConsistent_handleAddSession
    (newId : jsstring) (p : SessionPayload.t) (s : AppState) :
  rosterConsistent (children s) ->
  rosterConsistent (children (handleAddSession newId p s)).
Proof.
  intros H. unfold handleAddSession.
  destruct (negb _); [exact H|]. simpl.
  unfold rosterConsistent in *. rewrite Forall_map.
  eapply Forall_impl; [exact H|]. intros c Hc. simpl.
  unfold addSessionToChild. destruct (negb _); [exact Hc|]. simpl.
  rewrite Forall_map. eapply Forall_impl; [exact Hc|].
  intros g Hg. now apply consistent_advanceGoal.
Qed.

Section MachineFacts.

Variable therapists : list TherapistProfile.t.
Variable parents : list ParentProfile.t.
Variable donors : list DonorProfile.t.

(** The session log is the only event that touches the roster. *)
Lemma step_children (e : event) (s s' : AppState) :
  step therapists parents donors e s = Done s' ->
  children s' = children s \/
  exists newId p, e = AddSession newId p /\ s' = handleAddSession newId p s.
Proof.
  destruct e as [role|i|i|i|i|newId p|newId nowIso childId message]; simpl.
  - intros [= <-]. left. unfold handleRoleSelect.
    destruct role; [reflexivity|..];
      match goal with |- context [nullish ?a ?b] => destruct (nullish a b) end;
      reflexivity.
  - intros [= <-]. left. unfold handleTherapistChange.
    destruct (findTherapist _ _); reflexivity.
  - intros [= <-]. left. unfold handleParentChange.
    destruct (findParent _ _); reflexivity.
  - intros [= <-]. left. unfold handleDonorChange.
    destruct (findDonor _ _); reflexivity.
  - intros [= <-]. now left.
  - intros [= <-]. right. now exists newId, p.
  - unfold handleAddFamilyUpdate. intros H. left.
    destruct (negb _); [now injection H as <-|].
    destruct (familyUpdates s !! childId); [now injection H as <-|].
    destruct (includes _ _); [discriminate | now injection H as <-].
Qed.

Lemma step_rosterConsistent (e : event) (s s' : AppState) :
  step therapists parents donors e s = Done s' ->
  rosterConsistent (children s) -> rosterConsistent (children s').
Proof.
  intros Hstep Hs.
  destruct (step_children e s s' Hstep) as [-> | (newId & p & _ & ->)];
    [exact Hs | now apply rosterConsistent_handleAddSession].
Qed.

End MachineFacts.

Lemma followsRatioRule_tier (g : TherapyGoal.t) :
  followsRatioRule g
  <-> 0 < TherapyGoal.target g /\
      TherapyGoal.status g = tier (TherapyGoal.current g / TherapyGoal.target g).
Proof.
  unfold followsRatioRule. split.
  - intros (Ht & Hon & Hns & Hrisk). split; [exact Ht|].
    destruct (TherapyGoal.status g) eqn:E; symmetry.
    + apply tier_on_track. now apply Hon.
    + apply tier_needs_support. now apply Hns.
    + apply tier_at_risk. now apply Hrisk.
  - intros (Ht & Hst). split; [exact Ht|]. rewrite Hst.
    split; [apply tier_on_track|].
    split; [apply tier_needs_support | apply tier_at_risk].
Qed.

Lemma followsRatioRule_reclassify (g : TherapyGoal.t) (c : Q) :
  0 < TherapyGoal.target g -> followsRatioRule (reclassify g c).
Proof.
  intros Ht. apply followsRatioRule_tier. split; [exact Ht|].
  unfold reclassify. now rewrite updateGoalStatus_tier.
Qed.

Lemma followsRatioRule_advanceGoal (p : SessionPayload.t) (g : TherapyGoal.t) :
  followsRatioRule g -> followsRatioRule (advanceGoal p g).
Proof.
  intros Hg. unfold advanceGoal.
  destruct (negb _); [exact Hg|].
  apply followsRatioRule_reclassify. exact (proj1 Hg).
Qed.

Lemma rosterFollowsRatioRule_handleAddSession
    (newId : jsstring) (p : SessionPayload.t) (s : AppState) :
  rosterFollowsRatioRule (children s) ->
  rosterFollowsRatioRule (children (handleAddSession newId p s)).
Proof.
  intros H. unfold handleAddSession.
  destruct (negb _); [exact H|]. simpl.
  unfold rosterFollowsRatioRule in *. rewrite Forall_map.
  eapply Forall_impl; [exact H|]. intros c Hc. simpl.
  unfold addSessionToChild. destruct (negb _); [exact Hc|]. simpl.
  rewrite Forall_map. eapply Forall_impl; [exact Hc|].
  intros g Hg. now apply followsRatioRule_advanceGoal.
Qed.

(** C6. The status invariant is kept by every operation: from a roster in
    which every goal has a positive target and the status the three-tier
    ratio rule gives for its [current / target] ([on_track] exactly from
    0.80, [needs_support] exactly from 0.55 to below 0.80, [at_risk] exactly
    below 0.55), every state the component reaches, by any sequence of role
    switches, actor switches, child picks, session logs and family updates,
    has such a roster again: no operation produces a goal whose status and
    ratio disagree. *)
Theorem C6_status_invariant
    (therapists : list TherapistProfile.t) (parents : list ParentProfile.t)
    (donors : list DonorProfile.t) (s0 s : AppState) :
  rosterFollowsRatioRule (children s0) ->
  reachable therapists parents donors s0 s ->
  rosterFollowsRatioRule (children s).
Proof.
  intros H0 Hreach. induction Hreach as [|s e s' _ IH Hstep]; [exact H0|].
  destruct (step_children therapists parents donors e s s' Hstep)
    as [-> | (newId & p & _ & ->)];
    [exact IH | now apply rosterFollowsRatioRule_handleAddSession].
Qed.

(** A session rated 5 takes the goal of [c2] from 30 to 38 of 100, still
    [at_risk], and the roster follows the rule before and after. *)
Lemma C6_status_invariant_witness :
  let s0 := Sample.state [Sample.c1; Sample.c2; Sample.c5] therapist "t1" "p1" "d1" "c1" in
  let p := Sample.payload "c2" "Play skills" 5 ["g2"%string] in
  rosterFollowsRatioRule (children (handleAddSession (js "s-new") p s0)).
Proof.
  intros s0 p.
  apply (C6_status_invariant [] [] [] s0).
  - repeat first [ apply followsRatioRule_tier; split; reflexivity
                 | apply List.Forall_nil
                 | apply List.Forall_cons ].
  - apply (reach_step [] [] [] s0 s0 (AddSession (js "s-new") p)).
    + apply reach_init.
    + reflexivity.
Defined.

(** Once a session has raised it far enough, the status follows: rated 5
    three times, the goal of [c2] stands at 54 of 100, [at_risk]; the fourth
    session takes it to 62 and [needs_support]. *)
Example status_follows_ratio :
  let s0 := Sample.state [Sample.c2] therapist "t1" "p1" "d1" "c2" in
  let p := Sample.payload "c2" "Play skills" 5 ["g2"%string] in
  let log := handleAddSession (js "s-new") p in
  map (fun g => (Qred (TherapyGoal.current g), TherapyGoal.status g))
      (allGoals (children (log (log (log s0)))))
  = [(54, at_risk)] /\
  map (fun g => (Qred (TherapyGoal.current g), TherapyGoal.status g))
      (allGoals (children (log (log (log (log s0))))))
  = [(62, needs_support)].
Proof. split; reflexivity. Qed.

(** ** Session logging: what changes *)

Lemma lookup_map {A B : Type} (f : A -> B) (l : list A) (i : nat) :
  map f l !! i = option_map f (l !! i).
Proof.
  revert i. induction l as [|a l IH]; intros [|i]; simpl; auto.
Qed.

Lemma round_half_up_nearest (x : Q) : nearest_half_up x (round_half_up x).
Proof.
  unfold nearest_half_up, round_half_up.
  pose proof (Qfloor_le (x + 0.5)) as Hle.
  pose proof (Qlt_floor (x + 0.5)) as Hlt.
  rewrite inject_Z_plus in Hlt.
  change (inject_Z 1) with 1 in Hlt.
  split; lra.
Qed.

(** The increments the five ratings give. *)
Lemma increment_table :
  increment 1 = 2 /\ increment 2 = 3 /\ increment 3 = 5 /\
  increment 4 = 6 /\ increment 5 = 8.
Proof. repeat split. Qed.

(** C4. A session with a focus that is not blank, whatever its rating and
    goal set (so also for a rating from 1 to 5 and a goal set that is not
    empty): the roster keeps its length and order; a child with another id is
    the same record as before; a child with the id of the session has the new
    session record in front of its unchanged history and its other fields
    as before; among its goals, kept in number and order, one whose id is not
    in the goal set is the same record as before, and one whose id is in the
    set has [current] at the smaller of its target and [current + increment],
    its other fields but the status as before, where the increment is
    [rating / 5 * 8] rounded to the nearest integer, a tie going up.  The
    selection and the family updates are not touched. *)
Theorem C4_add_session_effect
    (newId : jsstring) (p : SessionPayload.t) (s : AppState) :
  trim (SessionPayload.focus p) <> [] ->
  let s' := handleAddSession newId p s in
  let inc := increment (SessionPayload.rating p) in
  (exists n : Z,
      inc = inject_Z n /\ nearest_half_up (SessionPayload.rating p / 5 * 8) n) /\
  length (children s') = length (children s) /\
  (selectedRole s' = selectedRole s /\
   selectedTherapistId s' = selectedTherapistId s /\
   selectedParentId s' = selectedParentId s /\
   selectedDonorId s' = selectedDonorId s /\
   selectedChildId s' = selectedChildId s /\
   familyUpdates s' = familyUpdates s) /\
  forall (i : nat) (c : ChildProfile.t),
    children s !! i = Some c ->
    (ChildProfile.id c <> SessionPayload.childId p -> children s' !! i = Some c) /\
    (ChildProfile.id c = SessionPayload.childId p ->
     exists c',
       children s' !! i = Some c' /\
       ChildProfile.sessionHistory c'
       = buildSession newId p :: ChildProfile.sessionHistory c /\
       (ChildProfile.id c' = ChildProfile.id c /\
        ChildProfile.name c' = ChildProfile.name c /\
        ChildProfile.age c' = ChildProfile.age c /\
        ChildProfile.diagnosis c' = ChildProfile.diagnosis c /\
        ChildProfile.avatarColor c' = ChildProfile.avatarColor c /\
        ChildProfile.therapists c' = ChildProfile.therapists c /\
        ChildProfile.upcomingSessions c' = ChildProfile.upcomingSessions c) /\
       length (ChildProfile.therapyGoals c') = length (ChildProfile.therapyGoals c) /\
       forall (j : nat) (g : TherapyGoal.t),
         ChildProfile.therapyGoals c !! j = Some g ->
         (~ In (TherapyGoal.id g) (SessionPayload.goalIds p) ->
          ChildProfile.therapyGoals c' !! j = Some g) /\
         (In (TherapyGoal.id g) (SessionPayload.goalIds p) ->
          exists g',
            ChildProfile.therapyGoals c' !! j = Some g' /\
            TherapyGoal.current g'
            = Qmin (TherapyGoal.target g) (TherapyGoal.current g + inc) /\
            TherapyGoal.id g' = TherapyGoal.id g /\
            TherapyGoal.category g' = TherapyGoal.category g /\
            TherapyGoal.description g' = TherapyGoal.description g /\
            TherapyGoal.baseline g' = TherapyGoal.baseline g /\
            TherapyGoal.target g' = TherapyGoal.target g)).
Proof.
  intros Hfocus s' inc.
  assert (Hs' : s' = set_children
                       (map (addSessionToChild (buildSession newId p) p) (children s)) s).
  { apply handleAddSession_nonblank.
    destruct (trim (SessionPayload.focus p)); [contradiction | reflexivity]. }
  split.
  { exists (round_half_up (SessionPayload.rating p / 5 * 8)).
    split; [reflexivity | apply round_half_up_nearest]. }
  rewrite Hs'. simpl. split; [apply length_map|]. split; [repeat split|].
  intros i c Hic. rewrite lookup_map, Hic. simpl. split.
  - intros Hne. now rewrite addSessionToChild_other.
  - intros Heq. rewrite addSessionToChild_target by exact Heq.
    eexists. split; [reflexivity|]. simpl.
    split; [reflexivity|]. split; [repeat split|]. split; [apply length_map|].
    intros j g Hjg. rewrite lookup_map, Hjg. simpl. split.
    + intros Hn. now rewrite advanceGoal_not_included.
    + intros Hin. rewrite advanceGoal_included by exact Hin.
      eexists. split; [reflexivity|]. repeat split.
Qed.

Lemma C4_add_session_effect_witness :
  let s := Sample.state [Sample.c1; Sample.c2] therapist "t1" "p1" "d1" "c1" in
  let p := Sample.payload "c1" "Play skills" 5 ["g1"%string] in
  length (children (handleAddSession (js "s-new") p s)) = 2%nat.
Proof.
  intros s p.
  destruct (C4_add_session_effect (js "s-new") p s) as (_ & Hlen & _).
  - vm_compute. discriminate.
  - exact Hlen.
Defined.

(** ** The child on display *)

Section ResolvedChild.

Variable parents : list ParentProfile.t.
Variable donors : list DonorProfile.t.

Lemma filter_all {A : Type} (l : list A) : List.filter (fun _ => true) l = l.
Proof. induction l as [|a l IH]; simpl; congruence. Qed.

Lemma filteredChildren_visibleb (s : AppState) :
  filteredChildren parents donors s
  = List.filter (visibleb parents donors s) (children s).
Proof.
  unfold filteredChildren, visibleb.
  destruct (selectedRole s); [now rewrite filter_all | reflexivity..].
Qed.

Lemma findParent_first_such (i : jsstring) (p : ParentProfile.t) :
  findParent parents i = Some p
  <-> first_such (fun q => ParentProfile.id q = i) parents p.
Proof.
  unfold findParent. rewrite find_first_such.
  first_such_reflect.
Qed.

Lemma findDonor_first_such (i : jsstring) (d : DonorProfile.t) :
  findDonor donors i = Some d
  <-> first_such (fun q => DonorProfile.id q = i) donors d.
Proof.
  unfold findDonor. rewrite find_first_such.
  first_such_reflect.
Qed.

Lemma visibleb_visible (s : AppState) (c : ChildProfile.t) :
  visibleb parents donors s c = true <-> visible parents donors s c.
Proof.
  unfold visibleb, visible. destruct (selectedRole s).
  - tauto.
  - apply includes_In.
  - unfold selectedParent. destruct (findParent parents (selectedParentId s)) as [p|] eqn:E; simpl.
    + rewrite includes_In. split.
      * intros H. exists p. split; [now apply findParent_first_such | exact H].
      * intros (q & Hq & Hin). apply findParent_first_such in Hq. congruence.
    + split; [discriminate|]. intros (q & Hq & _).
      apply findParent_first_such in Hq. congruence.
  - unfold selectedDonor. destruct (findDonor donors (selectedDonorId s)) as [d|] eqn:E; simpl.
    + rewrite includes_In. split.
      * intros H. exists d. split; [now apply findDonor_first_such | exact H].
      * intros (q & Hq & Hin). apply findDonor_first_such in Hq. congruence.
    + split; [discriminate|]. intros (q & Hq & _).
      apply findDonor_first_such in Hq. congruence.
Qed.

Lemma head_filteredChildren (s : AppState) (c : ChildProfile.t) :
  head (filteredChildren parents donors s) = Some c
  <-> first_such (visible parents donors s) (children s) c.
Proof.
  rewrite filteredChildren_visibleb, head_filter_find, find_first_such.
  split; apply first_such_ext; intros x; rewrite visibleb_visible; tauto.
Qed.

Lemma selectedChild_first_such (s : AppState) (c : ChildProfile.t) :
  selectedChild s = Some c
  <-> first_such (fun x => ChildProfile.id x = selectedChildId s) (children s) c.
Proof.
  unfold selectedChild. rewrite find_first_such.
  first_such_reflect.
Qed.

Lemma selectedChild_None (s : AppState) :
  selectedChild s = None
  <-> (forall x, In x (children s) -> ChildProfile.id x <> selectedChildId s).
Proof.
  unfold selectedChild. rewrite find_None_iff.
  split; intros H x Hx; specialize (H x Hx).
  - now apply bool_decide_eq_false in H.
  - now apply bool_decide_eq_false.
Qed.

End ResolvedChild.

(** C3, as stated, fails: the child on display is the active child as soon
    as the roster has it, visible or not.  A therapist without children is
    selected from the start state; the active child stays the roster's first
    child, whom this therapist does not see, and that child is displayed
    although the filtered list starts with another one. *)
Lemma C3_counterexample :
  let therapists := [Sample.therapistProfile "t1" []] in
  let s := handleRoleSelect therapists [] [] therapist
             (Sample.start [Sample.c3; Sample.c1]) in
  selectedChildId s = ChildProfile.id Sample.c3 /\
  ~ visible [] [] s Sample.c3 /\
  head (filteredChildren [] [] s) = Some Sample.c1 /\
  resolvedChild [] [] s = Some Sample.c3 /\
  Sample.c3 <> Sample.c1.
Proof.
  repeat split.
  - intros H. apply (visibleb_visible [] []) in H. vm_compute in H. discriminate.
  - intros H. discriminate H.
Qed.

(** C3, amended. The child on display is the active child whenever the
    roster has a child with the active id (the first such child), whether or
    not the role's filter shows it; when the roster has none, it is the first
    child the filter shows (center: every child; therapist: the children
    whose therapist list names the active therapist; parent and donor: the
    children whose id is in the child-id list of the active profile); when
    the filter shows none either, it is the first child of the roster; it is
    none exactly when the roster is empty. *)
Theorem C3_resolved_child
    (parents : list ParentProfile.t) (donors : list DonorProfile.t) (s : AppState) :
  let active := fun c => ChildProfile.id c = selectedChildId s in
  (forall c, first_such active (children s) c ->
             resolvedChild parents donors s = Some c) /\
  ((forall x, In x (children s) -> ~ active x) ->
   (forall c, first_such (visible parents donors s) (children s) c ->
              resolvedChild parents donors s = Some c) /\
   ((forall x, In x (children s) -> ~ visible parents donors s x) ->
    resolvedChild parents donors s = head (children s))) /\
  (resolvedChild parents donors s = None <-> children s = []).
Proof.
  intros active. unfold resolvedChild. split; [|split].
  - intros c Hc. apply selectedChild_first_such in Hc. now rewrite Hc.
  - intros Hnone. apply selectedChild_None in Hnone. rewrite Hnone. simpl. split.
    + intros c Hc. apply head_filteredChildren in Hc. now rewrite Hc.
    + intros Hinvisible.
      destruct (head (filteredChildren parents donors s)) as [c|] eqn:E; [|reflexivity].
      apply head_filteredChildren in E. destruct E as (l1 & l2 & Hl & Hv & _).
      exfalso. apply (Hinvisible c); [|exact Hv].
      rewrite Hl. apply in_or_app. right. now left.
  - split.
    + intros H. destruct (children s) as [|c cs] eqn:E; [reflexivity|].
      destruct (selectedChild s); [discriminate|]. simpl in H.
      destruct (head (filteredChildren parents donors s)); discriminate.
    + intros Hnil. unfold selectedChild.
      rewrite filteredChildren_visibleb, Hnil. reflexivity.
Qed.

(** ** The selection cascade *)

Lemma findFirstExistingChildId_first_such
    (cs : list ChildProfile.t) (ids : list jsstring) (cid : jsstring) :
  findFirstExistingChildId cs ids = Some cid <-> first_such (inRoster cs) ids cid.
Proof.
  unfold findFirstExistingChildId. rewrite find_first_such.
  split; apply first_such_ext; intros i; rewrite hasChild_inRoster; tauto.
Qed.

Lemma findFirstExistingChildId_None
    (cs : list ChildProfile.t) (ids : list jsstring) :
  findFirstExistingChildId cs ids = None
  <-> (forall i, In i ids -> ~ inRoster cs i).
Proof.
  unfold findFirstExistingChildId. rewrite find_None_iff.
  split; intros H i Hi; specialize (H i Hi).
  - rewrite <- hasChild_inRoster. congruence.
  - rewrite <- hasChild_inRoster in H. now destruct (hasChild cs i).
Qed.

Lemma selectChildOf_first_existing
    (ids : list jsstring) (s : AppState) (cid : jsstring) :
  first_such (inRoster (children s)) ids cid ->
  cid <> [] ->
  selectedChildId (selectChildOf ids s) = cid.
Proof.
  intros Hfirst Hne. unfold selectChildOf. simpl.
  assert (Hin : hasChild (children s) cid = true).
  { apply hasChild_inRoster. now destruct Hfirst as (_ & _ & _ & H & _). }
  apply findFirstExistingChildId_first_such in Hfirst. rewrite Hfirst.
  unfold ensureChildSelection. rewrite Hin.
  destruct cid; [contradiction | reflexivity].
Qed.

(** No id of the list names a child of the roster: the roster's first child
    is selected (the empty string when the roster is empty). *)
Lemma selectChildOf_none_existing (ids : list jsstring) (s : AppState) :
  (forall i, In i ids -> ~ inRoster (children s) i) ->
  selectedChildId (selectChildOf ids s) = firstChildId (children s).
Proof.
  intros H. apply findFirstExistingChildId_None in H.
  unfold selectChildOf. simpl. now rewrite H.
Qed.

(** C7, as stated, fails when the first id of the actor's list that the
    roster has is the empty string: [ensureChildSelection] reads the empty
    string as no candidate and selects the roster's first child. *)
Lemma C7_counterexample :
  let parents := [Sample.parentProfile "p1" [""%string]] in
  let s := Sample.start [Sample.c1; Sample.c0] in
  cascadeActor [] parents [] (RoleSelect parent) s = Some [js ""] /\
  first_such (inRoster (children s)) [js ""] (js "") /\
  step [] parents [] (RoleSelect parent) s
  = Done (handleRoleSelect [] parents [] parent s) /\
  selectedChildId (handleRoleSelect [] parents [] parent s) = js "c1" /\
  js "c1" <> js "".
Proof.
  repeat split.
  - exists [], []. repeat split; [|constructor].
    exists Sample.c0. split; [right; now left | reflexivity].
  - discriminate.
Qed.

(** C7, amended. On a switch to a role other than the center whose actor
    exists, and on a switch of actor, the active child id becomes the first
    id of that actor's child-id list that names a child of the roster,
    provided that id is not the empty string (which the cascade reads as no
    candidate). *)
Theorem C7_cascade_selects_first_existing
    (therapists : list TherapistProfile.t) (parents : list ParentProfile.t)
    (donors : list DonorProfile.t)
    (e : event) (s : AppState) (ids : list jsstring) (cid : jsstring) :
  cascadeActor therapists parents donors e s = Some ids ->
  first_such (inRoster (children s)) ids cid ->
  cid <> [] ->
  exists s',
    step therapists parents donors e s = Done s' /\ selectedChildId s' = cid.
Proof.
  intros Hactor Hfirst Hne.
  destruct e as [role|i|i|i|i|newId p|newId nowIso childId message];
    simpl in Hactor; try discriminate Hactor; eexists; (split; [reflexivity|]).
  - destruct role; try discriminate Hactor; unfold handleRoleSelect.
    + destruct (nullish _ _) as [a|]; [|discriminate Hactor].
      injection Hactor as <-. now apply selectChildOf_first_existing.
    + destruct (nullish _ _) as [a|]; [|discriminate Hactor].
      injection Hactor as <-. now apply selectChildOf_first_existing.
    + destruct (nullish _ _) as [a|]; [|discriminate Hactor].
      injection Hactor as <-. now apply selectChildOf_first_existing.
  - unfold handleTherapistChange.
    destruct (findTherapist therapists i) as [a|]; [|discriminate Hactor].
    injection Hactor as <-. now apply selectChildOf_first_existing.
  - unfold handleParentChange.
    destruct (findParent parents i) as [a|]; [|discriminate Hactor].
    injection Hactor as <-. now apply selectChildOf_first_existing.
  - unfold handleDonorChange.
    destruct (findDonor donors i) as [a|]; [|discriminate Hactor].
    injection Hactor as <-. now apply selectChildOf_first_existing.
Qed.

(** The example of the specification: the active parent's children are
    [c2; c5], the roster has no [c2], the switch to the parent role selects
    [c5]. *)
Lemma C7_cascade_selects_first_existing_witness :
  let parents := [Sample.parentProfile "p1" ["c2"; "c5"]%string] in
  let s := Sample.start [Sample.c1; Sample.c5] in
  exists s',
    step [] parents [] (RoleSelect parent) s = Done s' /\
    selectedChildId s' = js "c5".
Proof.
  intros parents s.
  apply (C7_cascade_selects_first_existing [] parents [] (RoleSelect parent) s
           [js "c2"; js "c5"] (js "c5")).
  - reflexivity.
  - exists [js "c2"], []. repeat split.
    + exists Sample.c5. split; [right; now left | reflexivity].
    + constructor; [|constructor].
      intros (c & Hc & Hid). destruct Hc as [<- | [<- | []]]; discriminate Hid.
  - discriminate.
Defined.

(** ** Sessions this week *)

Section ClockFacts.

Variable parseDate : jsstring -> option Z.
Variable LocalTZA : Z -> bool -> Z.
Variable YearFromTime : Z -> Z.
Variable MonthFromTime : Z -> Z.
Variable DayOfMonthStart : Z -> Z -> Z.

Local Open Scope Z_scope.

(** Whatever the lengths of the months, [setDate(getDate() - 7)] moves the
    local time back by seven days. *)
Lemma weekAgo_local (now : Z) :
  weekAgo LocalTZA YearFromTime MonthFromTime DayOfMonthStart now
  = TimeClip (sevenDaysBefore LocalTZA now).
Proof.
  unfold weekAgo, setDate, getDate, DateFromTime, MakeDay, MakeDate, sevenDaysBefore.
  f_equal. f_equal. unfold Day, TimeWithinDay.
  pose proof (Z.div_mod (LocalTime LocalTZA now) msPerDay) as H.
  unfold msPerDay in *. lia.
Qed.

Lemma sevenDaysBefore_same_offset (now : Z) :
  LocalTZA (LocalTime LocalTZA now - 7 * msPerDay) false = LocalTZA now true ->
  sevenDaysBefore LocalTZA now = now - 7 * msPerDay.
Proof.
  unfold sevenDaysBefore, UTC. intros ->. unfold LocalTime. lia.
Qed.

Lemma filter_sessionsSince (cutoff : Z) (sessions : list TherapySession.t) :
  length
    (List.filter
       (fun session => date_ge (parseDate (TherapySession.date session)) (Some cutoff))
       sessions)
  = sessionsSince parseDate cutoff sessions.
Proof.
  induction sessions as [|x rest IH]; simpl; [reflexivity|].
  destruct (parseDate (TherapySession.date x)) as [t|]; simpl; [|exact IH].
  destruct (cutoff <=? t); simpl; now rewrite IH.
Qed.

Lemma thisWeekSessions_cutoff (now cutoff : Z) (cs : list ChildProfile.t) :
  weekAgo LocalTZA YearFromTime MonthFromTime DayOfMonthStart now = Some cutoff ->
  thisWeekSessions parseDate LocalTZA YearFromTime MonthFromTime DayOfMonthStart now cs
  = rosterSessionsSince parseDate cutoff cs.
Proof.
  intros Hweek. unfold thisWeekSessions. rewrite Hweek.
  induction cs as [|c rest IH]; simpl; [reflexivity|].
  rewrite List.filter_app, List.length_app, filter_sessionsSince.
  now rewrite IH.
Qed.

End ClockFacts.

(** C9. The metric is the number of sessions, over all children, dated at
    or after the cut-off seven days before the evaluation time, the cut-off
    itself included and nothing excluded above it: a session dated at the
    cut-off or at any later time, the future included, adds one to the
    metric.  The seven days are days of the local clock, which is
    [now - 7 * 86400000] milliseconds whenever the local offset from UTC was
    the same then as now. *)
Theorem C9_sessions_this_week
    (parseDate : jsstring -> option Z) (LocalTZA : Z -> bool -> Z)
    (YearFromTime MonthFromTime : Z -> Z) (DayOfMonthStart : Z -> Z -> Z)
    (now : Z) (cs : list ChildProfile.t) :
  let cutoff := sevenDaysBefore LocalTZA now in
  let metric :=
    thisWeekSessions parseDate LocalTZA YearFromTime MonthFromTime DayOfMonthStart now in
  (Z.abs cutoff <= 8640000000000000)%Z ->
  metric cs = rosterSessionsSince parseDate cutoff cs /\
  (forall c rest x t,
      parseDate (TherapySession.date x) = Some t ->
      (cutoff <= t)%Z ->
      metric (ChildProfile.with_goals_history
                (ChildProfile.therapyGoals c)
                (x :: ChildProfile.sessionHistory c) c :: rest)
      = S (metric (c :: rest))) /\
  (LocalTZA (LocalTime LocalTZA now - 7 * msPerDay)%Z false = LocalTZA now true ->
   cutoff = (now - 7 * msPerDay)%Z).
Proof.
  intros cutoff metric Hrange.
  assert (Hweek : weekAgo LocalTZA YearFromTime MonthFromTime DayOfMonthStart now
                  = Some cutoff).
  { rewrite weekAgo_local. unfold TimeClip. fold cutoff.
    destruct (Z.gtb_spec (Z.abs cutoff) 8640000000000000); [lia | reflexivity]. }
  split; [now apply thisWeekSessions_cutoff|]. split.
  - intros c rest x t Hparse Hle. unfold metric.
    rewrite !(thisWeekSessions_cutoff _ _ _ _ _ _ _ _ Hweek). simpl.
    rewrite Hparse. apply Z.leb_le in Hle. now rewrite Hle.
  - apply sevenDaysBefore_same_offset.
Qed.

(** On 2025-03-12 in UTC: the session dated exactly seven days before and
    the one dated in 2030 count, the one dated eleven days before and the one
    without a date do not. *)
Lemma C9_sessions_this_week_witness :
  thisWeekSessions Sample.parseDate Sample.utcZone Sample.noCalendar Sample.noCalendar
                   Sample.noMonths Sample.march12 [Sample.c1; Sample.c6]
  = 2%nat.
Proof.
  destruct (C9_sessions_this_week Sample.parseDate Sample.utcZone Sample.noCalendar
              Sample.noCalendar Sample.noMonths Sample.march12 [Sample.c1; Sample.c6])
    as (H & _).
  - vm_compute. discriminate.
  - rewrite H. reflexivity.
Defined.

(** In a week in which the local offset changed, the cut-off is an hour off
    seven times 24 hours: the session dated 2025-03-05T00:00Z is not
    counted. *)
Example weekAgo_across_offset_change :
  weekAgo Sample.dstZone Sample.noCalendar Sample.noCalendar Sample.noMonths
          Sample.march12
  = Some (Sample.march12 - 7 * msPerDay + 3600000)%Z /\
  thisWeekSessions Sample.parseDate Sample.dstZone Sample.noCalendar Sample.noCalendar
                   Sample.noMonths Sample.march12 [Sample.c1; Sample.c6]
  = 1%nat.
Proof. split; reflexivity. Qed.

(** ** Donor panel *)

Lemma progress_no_goals (c : ChildProfile.t) :
  ChildProfile.therapyGoals c = [] -> DonorImpactPanel.progress c = NaN.
Proof. intros H. unfold DonorImpactPanel.progress. now rewrite H. Qed.

Lemma js_add_NaN_r (a : jsnum) : js_add a NaN = NaN.
Proof. now destruct a. Qed.

Lemma fold_progress_NaN (l : list ChildProfile.t) :
  fold_left (fun sum child => js_add sum (DonorImpactPanel.progress child)) l NaN = NaN.
Proof. induction l as [|a l IH]; simpl; [reflexivity | exact IH]. Qed.

Lemma fold_progress_poisoned (l : list ChildProfile.t) (acc : jsnum) (c : ChildProfile.t) :
  In c l ->
  DonorImpactPanel.progress c = NaN ->
  fold_left (fun sum child => js_add sum (DonorImpactPanel.progress child)) l acc = NaN.
Proof.
  revert acc. induction l as [|a l IH]; intros acc Hin Hc; [destruct Hin|].
  simpl. destruct Hin as [-> | Hin].
  - rewrite Hc, js_add_NaN_r. apply fold_progress_NaN.
  - now apply IH.
Qed.

(** The donor supports no child of the roster: the average is 0. *)
Lemma averageProgress_no_children (d : DonorProfile.t) (cs : list ChildProfile.t) :
  DonorImpactPanel.supportedChildren d cs = [] ->
  DonorImpactPanel.averageProgress d cs = Fin 0.
Proof. intros H. unfold DonorImpactPanel.averageProgress. now rewrite H. Qed.

(** The dashboard-wide average, next to it in the source, has the guard the
    donor panel lacks: no goal at all gives 0. *)
Lemma averageGoalProgress_no_goals (cs : list ChildProfile.t) :
  allGoals cs = [] -> averageGoalProgress cs = Fin 0.
Proof. intros H. unfold averageGoalProgress. now rewrite H. Qed.

Lemma len_pos {A : Type} (a : A) (l : list A) : 0 < len (a :: l).
Proof. unfold len, Qlt. simpl. lia. Qed.

Lemma fold_current_Qsum (l : list TherapyGoal.t) (acc : Q) :
  fold_left (fun gSum goal => gSum + TherapyGoal.current goal) l acc
  == acc + Qsum (map TherapyGoal.current l).
Proof.
  revert acc. induction l as [|g l IH]; intros acc; simpl.
  - ring.
  - rewrite IH. ring.
Qed.

Lemma progress_with_goals (c : ChildProfile.t) :
  ChildProfile.therapyGoals c <> [] ->
  exists q, DonorImpactPanel.progress c = Fin q /\ q == meanCurrent c.
Proof.
  intros Hne. unfold DonorImpactPanel.progress, meanCurrent.
  destruct (ChildProfile.therapyGoals c) as [|g l]; [contradiction|].
  rewrite js_div_pos by apply len_pos.
  eexists. split; [reflexivity|].
  rewrite fold_current_Qsum. now rewrite Qplus_0_l.
Qed.

Lemma fold_progress_Qsum (l : list ChildProfile.t) (acc : Q) :
  (forall c, In c l -> ChildProfile.therapyGoals c <> []) ->
  exists q,
    fold_left (fun sum child => js_add sum (DonorImpactPanel.progress child)) l (Fin acc)
    = Fin q /\
    q == acc + Qsum (map meanCurrent l).
Proof.
  revert acc. induction l as [|c l IH]; intros acc Hgoals; simpl.
  - exists acc. split; [reflexivity | ring].
  - destruct (progress_with_goals c) as (m & -> & Hm); [apply Hgoals; now left|].
    simpl. destruct (IH (acc + m)) as (q & -> & Hq).
    + intros x Hx. apply Hgoals. now right.
    + exists q. split; [reflexivity|]. rewrite Hq, Hm. ring.
Qed.

Lemma round_half_up_comp (x y : Q) : x == y -> round_half_up x = round_half_up y.
Proof. intros H. unfold round_half_up. apply Qfloor_comp. now rewrite H. Qed.

(** Where every supported child has a goal, the donor average is the mean of
    the children's means, rounded to the nearest integer.  This is a fact of
    the exact arithmetic of this development: where the exact mean falls on
    a tie, the doubles of the code can round to the neighbouring integer. *)
Lemma averageProgress_mean_of_means (d : DonorProfile.t) (cs : list ChildProfile.t) :
  DonorImpactPanel.supportedChildren d cs <> [] ->
  (forall c, In c (DonorImpactPanel.supportedChildren d cs) ->
             ChildProfile.therapyGoals c <> []) ->
  DonorImpactPanel.averageProgress d cs
  = Fin (inject_Z (round_half_up (meanOfMeans (DonorImpactPanel.supportedChildren d cs)))).
Proof.
  intros Hne Hgoals. unfold DonorImpactPanel.averageProgress.
  destruct (DonorImpactPanel.supportedChildren d cs) as [|a l] eqn:E; [contradiction|].
  destruct (fold_progress_Qsum (a :: l) 0 Hgoals) as (q & -> & Hq).
  rewrite js_div_pos by apply len_pos. simpl.
  do 2 f_equal. apply round_half_up_comp. unfold meanOfMeans.
  rewrite Hq. now rewrite Qplus_0_l.
Qed.

(** C2. What the code does where the claim does not hold: as soon as one
    supported child has no goals, the child's mean is 0 / 0, and the donor
    average is NaN instead of an integer. *)
Theorem C2_donor_average_unguarded
    (d : DonorProfile.t) (cs : list ChildProfile.t) (c : ChildProfile.t) :
  In c (DonorImpactPanel.supportedChildren d cs) ->
  ChildProfile.therapyGoals c = [] ->
  DonorImpactPanel.averageProgress d cs = NaN.
Proof.
  intros Hin Hgoals. unfold DonorImpactPanel.averageProgress.
  destruct (DonorImpactPanel.supportedChildren d cs) as [|a l] eqn:E; [destruct Hin|].
  rewrite (fold_progress_poisoned (a :: l) (Fin 0) c Hin (progress_no_goals c Hgoals)).
  reflexivity.
Qed.

Lemma C2_donor_average_unguarded_witness :
  DonorImpactPanel.averageProgress
    (Sample.donorProfile "d1" ["c1"; "c4"]%string) [Sample.c1; Sample.c4]
  = NaN.
Proof.
  apply (C2_donor_average_unguarded
           (Sample.donorProfile "d1" ["c1"; "c4"]%string) [Sample.c1; Sample.c4] Sample.c4).
  - right. now left.
  - reflexivity.
Defined.

(** ** Worked examples *)

Example trim_example : trim (js "  Joint attention  ") = js "Joint attention".
Proof. reflexivity. Qed.

(** A session rated 5 on the goal at 90 of 100: the goal moves to 98 and
    stays [on_track], the session heads the history, the other child is not
    touched. *)
Example handleAddSession_example :
  let s := Sample.state [Sample.c1; Sample.c2] therapist "t1" "p1" "d1" "c1" in
  let p := Sample.payload "c1" "Play skills" 5 ["g1"%string] in
  let s' := handleAddSession (js "s-new") p s in
  map (fun c => map TherapySession.id (ChildProfile.sessionHistory c)) (children s')
  = [[js "s-new"]; []] /\
  map (fun c => map (fun g => Qred (TherapyGoal.current g)) (ChildProfile.therapyGoals c))
      (children s')
  = [[98]; [30]] /\
  map (fun c => map TherapyGoal.status (ChildProfile.therapyGoals c)) (children s')
  = [[on_track]; [at_risk]] /\
  map (fun x => TherapySession.notes x) (ChildProfile.sessionHistory
                                           (nth 0 (children s') Sample.c0))
  = [noNotesPlaceholder].
Proof. repeat split. Qed.

(** A first update for a child opens its list; a blank one after it leaves
    the list as it is; a child id that is a name every object inherits makes
    the update throw. *)
Example handleAddFamilyUpdate_example :
  let s := Sample.start [Sample.c1] in
  exists s1,
    handleAddFamilyUpdate (js "u1") (js "2025-03-12T09:00:00.000Z") (js "c1")
                          (js " hello ") s = Done s1 /\
    familyUpdates s !! js "c1" = None /\
    familyUpdates s1 !! js "c1"
    = Some [FamilyUpdate.mk (js "u1") (js "hello") (js "2025-03-12T09:00:00.000Z")] /\
    handleAddFamilyUpdate (js "u2") (js "2025-03-12T09:05:00.000Z") (js "c1")
                          (js "   ") s1 = Done s1 /\
    handleAddFamilyUpdate (js "u3") (js "2025-03-12T09:06:00.000Z") (js "constructor")
                          (js "hello") s1 = TypeError.
Proof.
  eexists. split; [reflexivity|]. split; [reflexivity|].
  split; [apply lookup_insert_eq|]. split; reflexivity.
Qed.

(** A switch to the donor role falls back to the first donor when the active
    donor id is unknown, and selects that donor's first child in the
    roster. *)
Example handleRoleSelect_example :
  let donors := [Sample.donorProfile "d7" ["c9"; "c2"]%string] in
  let s := handleRoleSelect [] [] donors donor (Sample.start [Sample.c1; Sample.c2]) in
  selectedRole s = donor /\ selectedDonorId s = js "d7" /\ selectedChildId s = js "c2".
Proof. repeat split. Qed.

(** * Further properties *)

(** Unfolds the setters and reads the fields of explicit states, leaving
    the handlers' helpers folded. *)
Ltac state_fields :=
  unfold selectChildOf, set_selectedRole, set_selectedTherapistId,
    set_selectedParentId, set_selectedDonorId, set_selectedChildId,
    set_children, set_familyUpdates in *;
  cbn [children selectedRole selectedTherapistId selectedParentId
       selectedDonorId selectedChildId familyUpdates] in *.

(** ** Selection *)

Lemma hasChild_firstChildId (cs : list ChildProfile.t) :
  cs <> [] -> hasChild cs (firstChildId cs) = true.
Proof.
  destruct cs as [|c cs]; [contradiction|]. intros _. simpl.
  now rewrite bool_decide_eq_true_2.
Qed.

Lemma ensureChildSelection_cases
    (cs : list ChildProfile.t) (candidateId : option jsstring) :
  (exists i, candidateId = Some i /\ i <> [] /\ hasChild cs i = true /\
             ensureChildSelection cs candidateId = i) \/
  ensureChildSelection cs candidateId = firstChildId cs.
Proof.
  destruct candidateId as [i|]; [|now right]. simpl.
  destruct i as [|n i]; [now right|]. simpl.
  destruct (hasChild cs (n :: i)) eqn:E; [|now right].
  left. exists (n :: i). repeat split; [discriminate | exact E].
Qed.

Lemma ensureChildSelection_hasChild
    (cs : list ChildProfile.t) (candidateId : option jsstring) :
  cs <> [] -> hasChild cs (ensureChildSelection cs candidateId) = true.
Proof.
  intros Hne.
  destruct (ensureChildSelection_cases cs candidateId) as [(i & _ & _ & Hi & ->) | ->];
    [exact Hi | now apply hasChild_firstChildId].
Qed.

(** X1. [ensureChildSelection] never returns a dangling id: on a roster that
    is not empty its result names a child of the roster, on an empty roster
    it is the empty string; a candidate that is not the empty string and
    names a child of the roster is returned as it is. *)
Theorem ensureChildSelection_names_child
    (cs : list ChildProfile.t) (candidateId : option jsstring) :
  (cs <> [] -> inRoster cs (ensureChildSelection cs candidateId)) /\
  (cs = [] -> ensureChildSelection cs candidateId = []) /\
  (forall i, candidateId = Some i -> i <> [] -> inRoster cs i ->
             ensureChildSelection cs candidateId = i).
Proof.
  split; [|split].
  - intros Hne. apply hasChild_inRoster. now apply ensureChildSelection_hasChild.
  - intros ->. destruct candidateId as [i|]; [|reflexivity]. simpl.
    now rewrite andb_false_r.
  - intros i -> Hne Hin. apply hasChild_inRoster in Hin. simpl. rewrite Hin.
    destruct i; [contradiction | reflexivity].
Qed.

Lemma ensureChildSelection_idem
    (cs : list ChildProfile.t) (candidateId : option jsstring) :
  ensureChildSelection cs (Some (ensureChildSelection cs candidateId))
  = ensureChildSelection cs candidateId.
Proof.
  destruct (ensureChildSelection_cases cs candidateId) as [(i & _ & Hne & Hi & ->) | ->].
  - simpl. rewrite Hi. destruct i; [contradiction | reflexivity].
  - simpl. destruct (truthy (firstChildId cs) && hasChild cs (firstChildId cs));
      reflexivity.
Qed.

Lemma find_head_or {A : Type} (f : A -> bool) (l : list A) (a : A) :
  nullish (find f l) (head l) = Some a ->
  f a = true \/ (find f l = None /\ head l = Some a).
Proof.
  destruct (find f l) as [x|] eqn:E; simpl.
  - intros [= <-]. left. now apply find_some in E.
  - intros H. now right.
Qed.

Lemma fallback_found_again {A : Type} (key : A -> jsstring) (l : list A) (i : jsstring) (a : A) :
  nullish (find (fun x => bool_decide (key x = i)) l) (head l) = Some a ->
  find (fun x => bool_decide (key x = key a)) l = Some a.
Proof.
  destruct (find (fun x => bool_decide (key x = i)) l) as [x|] eqn:E; simpl.
  - intros [= <-]. pose proof (find_some _ _ E) as [_ Hk].
    apply bool_decide_eq_true in Hk. now rewrite Hk.
  - destruct l as [|b l]; simpl; [discriminate|]. intros [= <-].
    now rewrite bool_decide_eq_true_2.
Qed.

Section SelectionFacts.

Variable therapists : list TherapistProfile.t.
Variable parents : list ParentProfile.t.
Variable donors : list DonorProfile.t.

Lemma fallbackTherapist_found_again (i : jsstring) (a : TherapistProfile.t) :
  nullish (findTherapist therapists i) (head therapists) = Some a ->
  findTherapist therapists (TherapistProfile.id a) = Some a.
Proof. apply (fallback_found_again TherapistProfile.id). Qed.

Lemma fallbackParent_found_again (i : jsstring) (a : ParentProfile.t) :
  nullish (findParent parents i) (head parents) = Some a ->
  findParent parents (ParentProfile.id a) = Some a.
Proof. apply (fallback_found_again ParentProfile.id). Qed.

Lemma fallbackDonor_found_again (i : jsstring) (a : DonorProfile.t) :
  nullish (findDonor donors i) (head donors) = Some a ->
  findDonor donors (DonorProfile.id a) = Some a.
Proof. apply (fallback_found_again DonorProfile.id). Qed.

(** X2. Selecting the role that was just selected changes nothing more:
    [handleRoleSelect] is idempotent, for every role and state. *)
Theorem handleRoleSelect_idempotent (role : RoleKey) (s : AppState) :
  handleRoleSelect therapists parents donors role
    (handleRoleSelect therapists parents donors role s)
  = handleRoleSelect therapists parents donors role s.
Proof.
  destruct s as [cs r tid pid did cid fam].
  destruct role; unfold handleRoleSelect; state_fields.
  - now rewrite ensureChildSelection_idem.
  - destruct (nullish (findTherapist therapists tid) (head therapists)) as [a|] eqn:E;
      state_fields; [|now rewrite E].
    apply fallbackTherapist_found_again in E. now rewrite E.
  - destruct (nullish (findParent parents pid) (head parents)) as [a|] eqn:E;
      state_fields; [|now rewrite E].
    apply fallbackParent_found_again in E. now rewrite E.
  - destruct (nullish (findDonor donors did) (head donors)) as [a|] eqn:E;
      state_fields; [|now rewrite E].
    apply fallbackDonor_found_again in E. now rewrite E.
Qed.

End SelectionFacts.

Section CascadeFacts.

Variable therapists : list TherapistProfile.t.
Variable parents : list ParentProfile.t.
Variable donors : list DonorProfile.t.

Lemma findTherapist_exists (i : jsstring) :
  actorExists therapists parents donors therapist i
  <-> exists a, findTherapist therapists i = Some a.
Proof.
  simpl. unfold findTherapist. split.
  - intros (a & Ha & Hi).
    destruct (find (fun profile => bool_decide (TherapistProfile.id profile = i)) therapists)
      as [x|] eqn:E; [now exists x|].
    apply find_None_iff with (y := a) in E; [|exact Ha].
    apply bool_decide_eq_false in E. contradiction.
  - intros (a & Ha). apply find_some in Ha as [Hin Hk].
    apply bool_decide_eq_true in Hk. now exists a.
Qed.

Lemma findParent_exists (i : jsstring) :
  actorExists therapists parents donors parent i
  <-> exists a, findParent parents i = Some a.
Proof.
  simpl. unfold findParent. split.
  - intros (a & Ha & Hi).
    destruct (find (fun profile => bool_decide (ParentProfile.id profile = i)) parents)
      as [x|] eqn:E; [now exists x|].
    apply find_None_iff with (y := a) in E; [|exact Ha].
    apply bool_decide_eq_false in E. contradiction.
  - intros (a & Ha). apply find_some in Ha as [Hin Hk].
    apply bool_decide_eq_true in Hk. now exists a.
Qed.

Lemma findDonor_exists (i : jsstring) :
  actorExists therapists parents donors donor i
  <-> exists a, findDonor donors i = Some a.
Proof.
  simpl. unfold findDonor. split.
  - intros (a & Ha & Hi).
    destruct (find (fun profile => bool_decide (DonorProfile.id profile = i)) donors)
      as [x|] eqn:E; [now exists x|].
    apply find_None_iff with (y := a) in E; [|exact Ha].
    apply bool_decide_eq_false in E. contradiction.
  - intros (a & Ha). apply find_some in Ha as [Hin Hk].
    apply bool_decide_eq_true in Hk. now exists a.
Qed.

Lemma handleRoleSelect_repairs_actor_aux (role : RoleKey) (s : AppState) :
  selectedRole (handleRoleSelect therapists parents donors role s) = role /\
  children (handleRoleSelect therapists parents donors role s) = children s.
Proof.
  unfold handleRoleSelect.
  destruct role; [split; reflexivity|..];
    match goal with |- context [nullish ?a ?b] => destruct (nullish a b) end;
    split; reflexivity.
Qed.

(** X3. A role switch repairs the active actor of the role switched to and
    touches nothing else but the active child: afterwards the role is the
    one selected; roster and family updates are as before; the active actor
    ids of the other roles are as before; the active actor id of the role
    switched to names a profile whenever the role has one, and is the id it
    was whenever that id already named a profile. *)
Theorem handleRoleSelect_repairs_actor (role : RoleKey) (s : AppState) :
  let s' := handleRoleSelect therapists parents donors role s in
  selectedRole s' = role /\
  children s' = children s /\
  familyUpdates s' = familyUpdates s /\
  (forall other, other <> role -> actorIdOf other s' = actorIdOf other s) /\
  (hasActors therapists parents donors role ->
   actorExists therapists parents donors role (actorIdOf role s')) /\
  (actorExists therapists parents donors role (actorIdOf role s) ->
   actorIdOf role s' = actorIdOf role s).
Proof.
  destruct s as [cs r tid pid did cid fam].
  destruct role; unfold handleRoleSelect; state_fields.
  - repeat split; contradiction.
  - destruct (nullish (findTherapist therapists tid) (head therapists)) as [a|] eqn:E;
      state_fields; repeat split.
    + intros other Hne. destruct other; try reflexivity. contradiction.
    + intros _. apply findTherapist_exists. exists a.
      now apply fallbackTherapist_found_again in E.
    + intros H. apply findTherapist_exists in H as (b & Hb). cbn [actorIdOf] in *.
      state_fields. rewrite Hb in E. simpl in E. injection E as <-.
      apply find_some in Hb as [_ Hk]. now apply bool_decide_eq_true in Hk.
    + simpl. intros Hne. destruct therapists as [|x l]; [contradiction|].
      unfold nullish in E. destruct (findTherapist (x :: l) _); discriminate E.
  - destruct (nullish (findParent parents pid) (head parents)) as [a|] eqn:E;
      state_fields; repeat split.
    + intros other Hne. destruct other; try reflexivity. contradiction.
    + intros _. apply findParent_exists. exists a.
      now apply fallbackParent_found_again in E.
    + intros H. apply findParent_exists in H as (b & Hb). cbn [actorIdOf] in *.
      state_fields. rewrite Hb in E. simpl in E. injection E as <-.
      apply find_some in Hb as [_ Hk]. now apply bool_decide_eq_true in Hk.
    + simpl. intros Hne. destruct parents as [|x l]; [contradiction|].
      unfold nullish in E. destruct (findParent (x :: l) _); discriminate E.
  - destruct (nullish (findDonor donors did) (head donors)) as [a|] eqn:E;
      state_fields; repeat split.
    + intros other Hne. destruct other; try reflexivity. contradiction.
    + intros _. apply findDonor_exists. exists a.
      now apply fallbackDonor_found_again in E.
    + intros H. apply findDonor_exists in H as (b & Hb). cbn [actorIdOf] in *.
      state_fields. rewrite Hb in E. simpl in E. injection E as <-.
      apply find_some in Hb as [_ Hk]. now apply bool_decide_eq_true in Hk.
    + simpl. intros Hne. destruct donors as [|x l]; [contradiction|].
      unfold nullish in E. destruct (findDonor (x :: l) _); discriminate E.
Qed.

End CascadeFacts.

Lemma hasChild_find (cs : list ChildProfile.t) (i : jsstring) :
  hasChild cs i = true ->
  exists c,
    find (fun child => bool_decide (ChildProfile.id child = i)) cs = Some c /\
    ChildProfile.id c = i /\ In c cs.
Proof.
  intros H.
  destruct (find (fun child => bool_decide (ChildProfile.id child = i)) cs) as [c|] eqn:E.
  - exists c. apply find_some in E as [Hin Hk].
    apply bool_decide_eq_true in Hk. auto.
  - apply hasChild_inRoster in H as (c & Hc & Hi).
    apply find_None_iff with (y := c) in E; [|exact Hc].
    apply bool_decide_eq_false in E. contradiction.
Qed.

Section VisibleAfterCascade.

Variable therapists : list TherapistProfile.t.
Variable parents : list ParentProfile.t.
Variable donors : list DonorProfile.t.

Lemma parent_selection_visible (s : AppState) (a : ParentProfile.t) :
  selectedRole s = parent ->
  findParent parents (selectedParentId s) = Some a ->
  In (selectedChildId s) (ParentProfile.childIds a) ->
  hasChild (children s) (selectedChildId s) = true ->
  exists c,
    resolvedChild parents donors s = Some c /\
    ChildProfile.id c = selectedChildId s /\
    In c (filteredChildren parents donors s).
Proof.
  intros Hrole Hfind Hin Hhas.
  destruct (hasChild_find _ _ Hhas) as (c & Hc & Hid & Hcs).
  exists c. unfold resolvedChild, selectedChild. rewrite Hc.
  repeat split; [exact Hid|].
  unfold filteredChildren. rewrite Hrole. apply List.filter_In. split; [exact Hcs|].
  unfold selectedParent. rewrite Hfind. simpl. apply includes_In. now rewrite Hid.
Qed.

Lemma donor_selection_visible (s : AppState) (a : DonorProfile.t) :
  selectedRole s = donor ->
  findDonor donors (selectedDonorId s) = Some a ->
  In (selectedChildId s) (DonorProfile.childIds a) ->
  hasChild (children s) (selectedChildId s) = true ->
  exists c,
    resolvedChild parents donors s = Some c /\
    ChildProfile.id c = selectedChildId s /\
    In c (filteredChildren parents donors s).
Proof.
  intros Hrole Hfind Hin Hhas.
  destruct (hasChild_find _ _ Hhas) as (c & Hc & Hid & Hcs).
  exists c. unfold resolvedChild, selectedChild. rewrite Hc.
  repeat split; [exact Hid|].
  unfold filteredChildren. rewrite Hrole. apply List.filter_In. split; [exact Hcs|].
  unfold selectedDonor. rewrite Hfind. simpl. apply includes_In. now rewrite Hid.
Qed.

Lemma first_such_In {A : Type} (P : A -> Prop) (l : list A) (x : A) :
  first_such P l x -> In x l /\ P x.
Proof.
  intros (l1 & l2 & -> & Hx & _). split; [|exact Hx].
  apply in_or_app. right. now left.
Qed.

(** X4. For the parent and donor roles the cascade and the filter read the
    same child-id list, so the child the cascade selects is one the filter
    shows: after a switch to the parent or donor role, or a change of parent
    or donor while in that role, that finds an actor whose list has a
    non-empty id of the roster, the child on display is the child with the
    first such id and it is among the filtered children. *)
Theorem cascade_child_is_visible
    (e : event) (s : AppState) (role : RoleKey) (ids : list jsstring) (cid : jsstring) :
  eventRole e = Some role ->
  role = parent \/ role = donor ->
  e = RoleSelect role \/ selectedRole s = role ->
  cascadeActor therapists parents donors e s = Some ids ->
  first_such (inRoster (children s)) ids cid ->
  cid <> [] ->
  exists s' c,
    step therapists parents donors e s = Done s' /\
    resolvedChild parents donors s' = Some c /\
    ChildProfile.id c = cid /\
    In c (filteredChildren parents donors s').
Proof.
  intros Hev Hrole Hsel Hactor Hfirst Hne.
  pose proof (first_such_In _ _ _ Hfirst) as [Hin Hroster].
  apply hasChild_inRoster in Hroster.
  assert (Hpick : forall s1, children s1 = children s ->
                             selectedChildId (selectChildOf ids s1) = cid).
  { intros s1 Hs1. apply selectChildOf_first_existing; [now rewrite Hs1 | exact Hne]. }
  destruct s as [cs r tid pid did ch fam].
  destruct e as [r0|i|i|i|i|newId p|newId nowIso childId message];
    simpl in Hev; try discriminate Hev; injection Hev as <-;
    destruct Hrole as [Hrole | Hrole]; try discriminate Hrole;
    try subst r0; simpl in Hactor; eexists.
  - destruct (nullish (findParent parents pid) (head parents)) as [a|] eqn:E;
      [|discriminate Hactor]. injection Hactor as <-.
    destruct (parent_selection_visible
                (selectChildOf (ParentProfile.childIds a)
                   (set_selectedParentId (ParentProfile.id a)
                      (set_selectedRole parent (mkState cs r tid pid did ch fam)))) a)
      as (c & Hc & Hid & Hvis).
    + reflexivity.
    + state_fields. now apply fallbackParent_found_again in E.
    + now rewrite Hpick.
    + rewrite Hpick by reflexivity. exact Hroster.
    + exists c. rewrite Hpick in Hid by reflexivity. split; [reflexivity|].
      unfold handleRoleSelect.
      cbn [selectedParentId selectedDonorId]. rewrite E. auto.
  - destruct (nullish (findDonor donors did) (head donors)) as [a|] eqn:E;
      [|discriminate Hactor]. injection Hactor as <-.
    destruct (donor_selection_visible
                (selectChildOf (DonorProfile.childIds a)
                   (set_selectedDonorId (DonorProfile.id a)
                      (set_selectedRole donor (mkState cs r tid pid did ch fam)))) a)
      as (c & Hc & Hid & Hvis).
    + reflexivity.
    + state_fields. now apply fallbackDonor_found_again in E.
    + now rewrite Hpick.
    + rewrite Hpick by reflexivity. exact Hroster.
    + exists c. rewrite Hpick in Hid by reflexivity. split; [reflexivity|].
      unfold handleRoleSelect.
      cbn [selectedParentId selectedDonorId]. rewrite E. auto.
  - destruct Hsel as [Hsel | Hsel]; [discriminate Hsel|]. simpl in Hsel. subst r.
    destruct (findParent parents i) as [a|] eqn:E; [|discriminate Hactor].
    injection Hactor as <-.
    destruct (parent_selection_visible
                (selectChildOf (ParentProfile.childIds a)
                   (set_selectedParentId i (mkState cs parent tid pid did ch fam))) a)
      as (c & Hc & Hid & Hvis).
    + reflexivity.
    + state_fields. exact E.
    + now rewrite Hpick.
    + rewrite Hpick by reflexivity. exact Hroster.
    + exists c. rewrite Hpick in Hid by reflexivity. split; [reflexivity|].
      unfold handleParentChange, handleDonorChange. rewrite E. auto.
  - destruct Hsel as [Hsel | Hsel]; [discriminate Hsel|]. simpl in Hsel. subst r.
    destruct (findDonor donors i) as [a|] eqn:E; [|discriminate Hactor].
    injection Hactor as <-.
    destruct (donor_selection_visible
                (selectChildOf (DonorProfile.childIds a)
                   (set_selectedDonorId i (mkState cs donor tid pid did ch fam))) a)
      as (c & Hc & Hid & Hvis).
    + reflexivity.
    + state_fields. exact E.
    + now rewrite Hpick.
    + rewrite Hpick by reflexivity. exact Hroster.
    + exists c. rewrite Hpick in Hid by reflexivity. split; [reflexivity|].
      unfold handleParentChange, handleDonorChange. rewrite E. auto.
Qed.

End VisibleAfterCascade.

Lemma cascade_child_is_visible_witness :
  let parents := [Sample.parentProfile "p1" ["c2"; "c5"]%string] in
  let s := Sample.start [Sample.c1; Sample.c5] in
  exists s' c,
    step [] parents [] (RoleSelect parent) s = Done s' /\
    resolvedChild parents [] s' = Some c /\
    ChildProfile.id c = js "c5" /\
    In c (filteredChildren parents [] s').
Proof.
  intros parents s.
  apply (cascade_child_is_visible [] parents [] (RoleSelect parent) s parent
           [js "c2"; js "c5"] (js "c5")).
  - reflexivity.
  - now left.
  - now left.
  - reflexivity.
  - exists [js "c2"], []. repeat split.
    + exists Sample.c5. split; [right; now left | reflexivity].
    + constructor; [|constructor].
      intros (c & Hc & Hid). destruct Hc as [<- | [<- | []]]; discriminate Hid.
  - discriminate.
Defined.

(** ** What no event changes *)

Lemma goalFrame_advanceGoal (p : SessionPayload.t) (g : TherapyGoal.t) :
  goalFrame (advanceGoal p g) = goalFrame g.
Proof. unfold advanceGoal. destruct (negb _); reflexivity. Qed.

Lemma childFrame_addSessionToChild
    (session : TherapySession.t) (p : SessionPayload.t) (c : ChildProfile.t) :
  childFrame (addSessionToChild session p c) = childFrame c.
Proof.
  unfold addSessionToChild. destruct (negb _); [reflexivity|].
  unfold childFrame. simpl. f_equal. rewrite map_map.
  apply map_ext. intros g. apply goalFrame_advanceGoal.
Qed.

Lemma childFrame_handleAddSession
    (newId : jsstring) (p : SessionPayload.t) (s : AppState) :
  map childFrame (children (handleAddSession newId p s)) = map childFrame (children s).
Proof.
  unfold handleAddSession. destruct (negb _); [reflexivity|]. simpl.
  rewrite map_map. apply map_ext. intros c. apply childFrame_addSessionToChild.
Qed.

Section FrameFacts.

Variable therapists : list TherapistProfile.t.
Variable parents : list ParentProfile.t.
Variable donors : list DonorProfile.t.

Lemma step_childFrame (e : event) (s s' : AppState) :
  step therapists parents donors e s = Done s' ->
  map childFrame (children s') = map childFrame (children s).
Proof.
  intros Hstep.
  destruct (step_children therapists parents donors e s s' Hstep)
    as [-> | (newId & p & _ & ->)];
    [reflexivity | apply childFrame_handleAddSession].
Qed.

Lemma reachable_childFrame (s0 s : AppState) :
  reachable therapists parents donors s0 s ->
  map childFrame (children s) = map childFrame (children s0).
Proof.
  induction 1 as [|s e s' _ IH Hstep]; [reflexivity|].
  rewrite <- IH. exact (step_childFrame e s s' Hstep).
Qed.

End FrameFacts.

(** X5. Whatever the sequence of events, the roster keeps its children in
    number and order, each with its id, name, age, diagnosis, avatar color,
    therapist list and upcoming sessions, and each child keeps its goals in
    number and order, each with its id, category, description, baseline and
    target: only [current] and [status] of goals and the session histories
    ever change. *)
Theorem roster_frame_invariant
    (therapists : list TherapistProfile.t) (parents : list ParentProfile.t)
    (donors : list DonorProfile.t) (s0 s : AppState) :
  reachable therapists parents donors s0 s ->
  map childFrame (children s) = map childFrame (children s0).
Proof. apply reachable_childFrame. Qed.

Lemma roster_frame_invariant_witness :
  let s0 := Sample.state [Sample.c1; Sample.c2; Sample.c5] therapist "t1" "p1" "d1" "c1" in
  let p := Sample.payload "c2" "Play skills" 5 ["g2"%string] in
  map childFrame (children (handleAddSession (js "s-new") p s0))
  = map childFrame (children s0).
Proof.
  intros s0 p.
  apply (roster_frame_invariant [] [] [] s0).
  apply (reach_step [] [] [] s0 s0 (AddSession (js "s-new") p));
    [apply reach_init | reflexivity].
Defined.

Lemma upcomingSessions_frame (cs : list ChildProfile.t) :
  upcomingSessions cs
  = flat_map (fun fr => snd (fst fr)) (map childFrame cs).
Proof.
  unfold upcomingSessions. induction cs as [|c cs IH]; simpl; [reflexivity|].
  now rewrite IH.
Qed.

(** X6. Two of the dashboard's figures never move: whatever the sequence of
    events, the number of active children and the agency-wide schedule (the
    upcoming sessions of all children, in roster order) are those of the
    start. *)
Theorem roster_size_and_schedule_constant
    (therapists : list TherapistProfile.t) (parents : list ParentProfile.t)
    (donors : list DonorProfile.t) (s0 s : AppState) :
  reachable therapists parents donors s0 s ->
  length (children s) = length (children s0) /\
  upcomingSessions (children s) = upcomingSessions (children s0).
Proof.
  intros Hreach.
  pose proof (reachable_childFrame therapists parents donors s0 s Hreach) as Hframe.
  split.
  - rewrite <- (length_map childFrame (children s)), Hframe. apply length_map.
  - now rewrite !upcomingSessions_frame, Hframe.
Qed.

Lemma roster_size_and_schedule_constant_witness :
  let s0 := Sample.state [Sample.c1; Sample.c2; Sample.c5] therapist "t1" "p1" "d1" "c1" in
  let p := Sample.payload "c2" "Play skills" 5 ["g2"%string] in
  length (children (handleAddSession (js "s-new") p s0)) = length (children s0) /\
  upcomingSessions (children (handleAddSession (js "s-new") p s0))
  = upcomingSessions (children s0).
Proof.
  intros s0 p.
  apply (roster_size_and_schedule_constant [] [] [] s0).
  apply (reach_step [] [] [] s0 s0 (AddSession (js "s-new") p));
    [apply reach_init | reflexivity].
Defined.

(** ** The active child on the rendered page *)

Lemma hasChild_frame (cs cs' : list ChildProfile.t) (i : jsstring) :
  map childFrame cs = map childFrame cs' -> hasChild cs i = hasChild cs' i.
Proof.
  revert cs'. induction cs as [|c cs IH]; intros [|c' cs'] H; try discriminate H;
    [reflexivity|].
  simpl in H.
  assert (Hc : childFrame c = childFrame c') by congruence.
  assert (Hrest : map childFrame cs = map childFrame cs') by congruence.
  apply (f_equal (fun fr => fst (fst (fst (fst (fst (fst (fst fr)))))))) in Hc.
  simpl in Hc. simpl. now rewrite (IH cs' Hrest), Hc.
Qed.

Lemma filteredChildren_incl
    (parents : list ParentProfile.t) (donors : list DonorProfile.t)
    (s : AppState) (c : ChildProfile.t) :
  In c (filteredChildren parents donors s) -> In c (children s).
Proof.
  rewrite filteredChildren_visibleb. intros H. now apply List.filter_In in H.
Qed.

Section PageFacts.

Variable therapists : list TherapistProfile.t.
Variable parents : list ParentProfile.t.
Variable donors : list DonorProfile.t.

(** The active child id after an event: as before, or a result of
    [ensureChildSelection] on the roster, or the id picked. *)
Lemma step_selectedChildId (e : event) (s s' : AppState) :
  step therapists parents donors e s = Done s' ->
  selectedChildId s' = selectedChildId s \/
  (exists candidateId,
      selectedChildId s' = ensureChildSelection (children s) candidateId) \/
  e = ChildPick (selectedChildId s').
Proof.
  destruct e as [role|i|i|i|i|newId p|newId nowIso childId message]; simpl.
  - intros [= <-]. unfold handleRoleSelect.
    destruct role;
      [right; left; eexists; reflexivity|..];
      match goal with |- context [nullish ?a ?b] => destruct (nullish a b) end;
      state_fields; first [now left | right; left; eexists; reflexivity].
  - intros [= <-]. unfold handleTherapistChange.
    destruct (findTherapist _ _); state_fields;
      [right; left; eexists; reflexivity | now left].
  - intros [= <-]. unfold handleParentChange.
    destruct (findParent _ _); state_fields;
      [right; left; eexists; reflexivity | now left].
  - intros [= <-]. unfold handleDonorChange.
    destruct (findDonor _ _); state_fields;
      [right; left; eexists; reflexivity | now left].
  - intros [= <-]. now right; right.
  - intros [= <-]. left. unfold handleAddSession.
    destruct (negb _); reflexivity.
  - unfold handleAddFamilyUpdate. intros H. left.
    destruct (negb _); [now injection H as <-|].
    destruct (familyUpdates s !! childId); [now injection H as <-|].
    destruct (includes _ _); [discriminate | now injection H as <-].
Qed.

Lemma page_step_active_child (e : event) (s s' : AppState) :
  offered parents donors s e ->
  step therapists parents donors e s = Done s' ->
  (children s <> [] -> hasChild (children s) (selectedChildId s) = true) ->
  children s' <> [] -> hasChild (children s') (selectedChildId s') = true.
Proof.
  intros Hoffered Hstep Hinv Hne'.
  pose proof (step_childFrame therapists parents donors e s s' Hstep) as Hframe.
  assert (Hne : children s <> []).
  { intros Hnil. rewrite Hnil in Hframe. destruct (children s'); [contradiction | discriminate]. }
  rewrite (hasChild_frame _ _ _ Hframe).
  destruct (step_selectedChildId e s s' Hstep) as [-> | [(cand & ->) | He]].
  - now apply Hinv.
  - now apply ensureChildSelection_hasChild.
  - subst e. simpl in Hoffered. destruct Hoffered as (c & Hc & Hid).
    apply hasChild_inRoster. exists c. split; [|exact Hid].
    now apply filteredChildren_incl in Hc.
Qed.

Lemma pageReachable_active_child (cs : list ChildProfile.t) (s : AppState) :
  pageReachable therapists parents donors
    (initialState therapists parents donors cs) s ->
  children s <> [] -> hasChild (children s) (selectedChildId s) = true.
Proof.
  induction 1 as [|s e s' _ IH Hoffered Hstep].
  - simpl. apply hasChild_firstChildId.
  - now apply (page_step_active_child e s s').
Qed.

End PageFacts.

(** X7. On the rendered page the active child never dangles: in every state
    reached from the initial state by role switches, actor changes, picks of
    a displayed child badge, session logs and family updates, a roster that
    is not empty has a child with the active child id, and that child is the
    one on display; the fallbacks of [resolvedChild] to the filtered list and
    to the roster's first child are never taken. *)
Theorem page_active_child_exists
    (therapists : list TherapistProfile.t) (parents : list ParentProfile.t)
    (donors : list DonorProfile.t) (cs : list ChildProfile.t) (s : AppState) :
  pageReachable therapists parents donors
    (initialState therapists parents donors cs) s ->
  children s <> [] ->
  exists c,
    In c (children s) /\
    ChildProfile.id c = selectedChildId s /\
    selectedChild s = Some c /\
    resolvedChild parents donors s = Some c.
Proof.
  intros Hreach Hne.
  pose proof (pageReachable_active_child therapists parents donors cs s Hreach Hne) as H.
  destruct (hasChild_find _ _ H) as (c & Hfind & Hid & Hin).
  exists c. unfold resolvedChild, selectedChild. rewrite Hfind. auto.
Qed.

Lemma page_active_child_exists_witness :
  let donors := [Sample.donorProfile "d7" ["c9"; "c2"]%string] in
  let s0 := initialState [] [] donors [Sample.c1; Sample.c2] in
  exists c,
    In c (children (handleRoleSelect [] [] donors donor s0)) /\
    ChildProfile.id c = selectedChildId (handleRoleSelect [] [] donors donor s0) /\
    selectedChild (handleRoleSelect [] [] donors donor s0) = Some c /\
    resolvedChild [] donors (handleRoleSelect [] [] donors donor s0) = Some c.
Proof.
  intros donors s0.
  apply (page_active_child_exists [] [] donors [Sample.c1; Sample.c2]).
  - apply (page_step [] [] donors _ s0 (RoleSelect donor));
      [apply page_init | exact I | reflexivity].
  - discriminate.
Defined.

(** ** Session histories *)

Lemma historyGrew_refl (c : ChildProfile.t) : historyGrew c c.
Proof. now exists []. Qed.

Lemma historyGrew_trans (a b c : ChildProfile.t) :
  historyGrew a b -> historyGrew b c -> historyGrew a c.
Proof.
  intros (x & Hx) (y & Hy). exists (y ++ x). now rewrite Hy, Hx, <- app_assoc.
Qed.

Lemma Forall2_historyGrew_refl (cs : list ChildProfile.t) : Forall2 historyGrew cs cs.
Proof. induction cs; constructor; [apply historyGrew_refl | assumption]. Qed.

Lemma Forall2_historyGrew_trans (a b c : list ChildProfile.t) :
  Forall2 historyGrew a b -> Forall2 historyGrew b c -> Forall2 historyGrew a c.
Proof.
  intros Hab. revert c. induction Hab as [|x y a b Hxy _ IH]; intros c Hbc.
  - inversion Hbc. constructor.
  - inversion Hbc as [|? z ? c' Hyz Hrest]; subst. constructor.
    + now apply (historyGrew_trans x y z).
    + now apply IH.
Qed.

Lemma historyGrew_addSessionToChild
    (session : TherapySession.t) (p : SessionPayload.t) (c : ChildProfile.t) :
  historyGrew c (addSessionToChild session p c).
Proof.
  unfold addSessionToChild. destruct (negb _); [apply historyGrew_refl|].
  now exists [session].
Qed.

Lemma historyGrew_handleAddSession
    (newId : jsstring) (p : SessionPayload.t) (s : AppState) :
  Forall2 historyGrew (children s) (children (handleAddSession newId p s)).
Proof.
  unfold handleAddSession. destruct (negb _); [apply Forall2_historyGrew_refl|].
  simpl. induction (children s) as [|c cs IH]; simpl; constructor;
    [apply historyGrew_addSessionToChild | exact IH].
Qed.

(** X8. Session histories are append-only: whatever the sequence of events,
    each child's history in the state reached is its history at the start
    with records added in front; no stored session is ever removed, changed
    or moved. *)
Theorem session_history_append_only
    (therapists : list TherapistProfile.t) (parents : list ParentProfile.t)
    (donors : list DonorProfile.t) (s0 s : AppState) :
  reachable therapists parents donors s0 s ->
  Forall2 historyGrew (children s0) (children s).
Proof.
  induction 1 as [|s e s' _ IH Hstep]; [apply Forall2_historyGrew_refl|].
  apply (Forall2_historyGrew_trans _ (children s)); [exact IH|].
  destruct (step_children therapists parents donors e s s' Hstep)
    as [-> | (newId & p & _ & ->)];
    [apply Forall2_historyGrew_refl | apply historyGrew_handleAddSession].
Qed.

Lemma session_history_append_only_witness :
  let s0 := Sample.state [Sample.c6; Sample.c2] therapist "t1" "p1" "d1" "c6" in
  let p := Sample.payload "c6" "Play skills" 5 ["g6"%string] in
  Forall2 historyGrew (children s0) (children (handleAddSession (js "s-new") p s0)).
Proof.
  intros s0 p.
  apply (session_history_append_only [] [] [] s0).
  apply (reach_step [] [] [] s0 s0 (AddSession (js "s-new") p));
    [apply reach_init | reflexivity].
Defined.

Lemma map_fixed {A : Type} (f : A -> A) (l : list A) :
  map f l = l -> forall x, In x l -> f x = x.
Proof.
  induction l as [|a l IH]; simpl; intros H x Hx; [destruct Hx|].
  injection H as Ha Hl. destruct Hx as [<- | Hx]; auto.
Qed.

Lemma cons_neq_self {A : Type} (x : A) (l : list A) : x :: l <> l.
Proof.
  intros H. apply (f_equal (@length A)) in H. simpl in H. lia.
Qed.

(** X9. [handleAddSession] leaves the state as it was in exactly two cases:
    the focus is blank after trimming, or no child of the roster has the
    child id of the session.  In every other case the state changes. *)
Theorem handleAddSession_noop_iff
    (newId : jsstring) (p : SessionPayload.t) (s : AppState) :
  handleAddSession newId p s = s
  <-> trim (SessionPayload.focus p) = []
      \/ ~ inRoster (children s) (SessionPayload.childId p).
Proof.
  split.
  - intros Heq.
    destruct (trim (SessionPayload.focus p)) as [|n t] eqn:Ef; [now left|].
    right. intros (c & Hc & Hid).
    rewrite handleAddSession_nonblank in Heq by now rewrite Ef.
    apply (f_equal children) in Heq. simpl in Heq.
    pose proof (map_fixed _ _ Heq c Hc) as Hfix.
    rewrite addSessionToChild_target in Hfix by exact Hid.
    apply (f_equal ChildProfile.sessionHistory) in Hfix. simpl in Hfix.
    exact (cons_neq_self _ _ Hfix).
  - intros [Hblank | Hunknown].
    + unfold handleAddSession. now rewrite Hblank.
    + destruct (trim (SessionPayload.focus p)) as [|n t] eqn:Ef.
      * unfold handleAddSession. now rewrite Ef.
      * rewrite handleAddSession_nonblank by now rewrite Ef.
        rewrite map_id_on; [apply set_children_same|].
        intros c Hc. apply addSessionToChild_other.
        intros Heq. apply Hunknown. now exists c.
Qed.

Lemma addSessionToChild_id
    (session : TherapySession.t) (p : SessionPayload.t) (c : ChildProfile.t) :
  ChildProfile.id (addSessionToChild session p c) = ChildProfile.id c.
Proof. unfold addSessionToChild. destruct (negb _); reflexivity. Qed.

Lemma addSessionToChild_comm
    (x1 x2 : TherapySession.t) (p1 p2 : SessionPayload.t) (c : ChildProfile.t) :
  SessionPayload.childId p1 <> SessionPayload.childId p2 ->
  addSessionToChild x1 p1 (addSessionToChild x2 p2 c)
  = addSessionToChild x2 p2 (addSessionToChild x1 p1 c).
Proof.
  intros Hne.
  destruct (decide (ChildProfile.id c = SessionPayload.childId p1)) as [H1 | H1].
  - assert (H2 : ChildProfile.id c <> SessionPayload.childId p2) by congruence.
    rewrite (addSessionToChild_other x2 p2 c H2).
    rewrite (addSessionToChild_other x2 p2); [reflexivity|].
    now rewrite addSessionToChild_id.
  - rewrite (addSessionToChild_other x1 p1 c H1).
    rewrite (addSessionToChild_other x1 p1); [reflexivity|].
    now rewrite addSessionToChild_id.
Qed.

(** X10. Sessions for different children can be logged in either order: for
    two payloads with different child ids, [handleAddSession] after
    [handleAddSession] gives the same state both ways round. *)
Theorem handleAddSession_commutes
    (id1 id2 : jsstring) (p1 p2 : SessionPayload.t) (s : AppState) :
  SessionPayload.childId p1 <> SessionPayload.childId p2 ->
  handleAddSession id1 p1 (handleAddSession id2 p2 s)
  = handleAddSession id2 p2 (handleAddSession id1 p1 s).
Proof.
  intros Hne. unfold handleAddSession.
  destruct (negb (truthy (trim (SessionPayload.focus p1))));
    destruct (negb (truthy (trim (SessionPayload.focus p2)))); try reflexivity.
  unfold set_children. simpl. f_equal. rewrite !map_map.
  apply map_ext. intros c. now apply addSessionToChild_comm.
Qed.

Lemma handleAddSession_commutes_witness :
  let s := Sample.state [Sample.c1; Sample.c2] therapist "t1" "p1" "d1" "c1" in
  let p1 := Sample.payload "c1" "Play skills" 5 ["g1"%string] in
  let p2 := Sample.payload "c2" "Turn taking" 2 ["g2"%string] in
  handleAddSession (js "a") p1 (handleAddSession (js "b") p2 s)
  = handleAddSession (js "b") p2 (handleAddSession (js "a") p1 s).
Proof.
  intros s p1 p2. apply handleAddSession_commutes. discriminate.
Defined.

(** ** Goal progress under session logging *)

Lemma tier_mono (r1 r2 : Q) :
  r1 <= r2 -> (statusRank (tier r1) <= statusRank (tier r2))%nat.
Proof.
  intros Hle. unfold tier.
  destruct (Qle_bool 0.8 r1) eqn:A1; destruct (Qle_bool 0.8 r2) eqn:A2;
    destruct (Qle_bool 0.55 r1) eqn:B1; destruct (Qle_bool 0.55 r2) eqn:B2;
    simpl; try lia;
    repeat match goal with
           | H : Qle_bool _ _ = true |- _ => apply Qle_bool_iff in H
           | H : Qle_bool _ _ = false |- _ => apply Qle_bool_false in H
           end; lra.
Qed.

Lemma statusRank_le_2 (st : TherapyStatus) : (statusRank st <= 2)%nat.
Proof. destruct st; simpl; lia. Qed.

Lemma tier_full (t : Q) : 0 < t -> tier (t / t) = on_track.
Proof.
  intros Ht. apply tier_on_track.
  assert (H : t / t == 1) by (field; lra).
  rewrite H. lra.
Qed.

Lemma increment_nonneg (rating : Q) : 0 <= rating -> 0 <= increment rating.
Proof.
  intros H. unfold increment, round_half_up.
  change 0 with (inject_Z 0). rewrite <- Zle_Qle.
  change 0%Z with (Qfloor 0). apply Qfloor_resp_le.
  assert (H5 : rating / 5 * 8 == rating * (8 # 5)) by field.
  rewrite H5. nra.
Qed.

Lemma div_le_div (a b t : Q) : 0 < t -> a <= b -> a / t <= b / t.
Proof.
  intros Ht Hab. unfold Qdiv. apply Qmult_le_compat_r; [exact Hab|].
  apply Qinv_le_0_compat. lra.
Qed.

Lemma reclassify_current (g : TherapyGoal.t) (c : Q) :
  TherapyGoal.current (reclassify g c) = Qmin (TherapyGoal.target g) c.
Proof. reflexivity. Qed.

Lemma Qmin_cases (x y : Q) :
  (Qmin x y = x /\ x <= y) \/ (Qmin x y = y /\ y < x).
Proof.
  unfold Qmin, GenericMinMax.gmin. destruct (x ?= y) eqn:E.
  - left. split; [reflexivity|]. apply Qeq_alt in E. rewrite E. lra.
  - left. split; [reflexivity|]. apply Qlt_alt in E. lra.
  - right. split; [reflexivity|]. now apply Qgt_alt in E.
Qed.

Lemma advanceGoal_status_never_worse_aux (p : SessionPayload.t) (g : TherapyGoal.t) :
  0 < TherapyGoal.target g ->
  consistent g ->
  0 <= SessionPayload.rating p ->
  (statusRank (TherapyGoal.status g)
   <= statusRank (TherapyGoal.status (advanceGoal p g)))%nat.
Proof.
  intros Ht Hcons Hrating.
  pose proof (increment_nonneg _ Hrating) as Hinc.
  unfold consistent in Hcons. rewrite updateGoalStatus_tier in Hcons by exact Ht.
  unfold advanceGoal. destruct (negb _); [lia|].
  unfold reclassify. rewrite updateGoalStatus_tier by exact Ht.
  cbn [TherapyGoal.current TherapyGoal.target TherapyGoal.with_current].
  rewrite <- Hcons.
  destruct (Qmin_cases (TherapyGoal.target g)
              (TherapyGoal.current g + increment (SessionPayload.rating p)))
    as [[-> _] | [-> _]].
  - rewrite tier_full by exact Ht. apply statusRank_le_2.
  - apply tier_mono, div_le_div; [exact Ht | lra].
Qed.

(** X11. Logging a session never makes a goal's status worse: for a goal
    with a positive target whose status is the one the engine computes, and a
    rating that is not negative, the status after [handleAddSession]'s goal
    update is the same tier or a better one; a goal that the added increment
    takes to its target or beyond ends [on_track]. *)
Theorem advanceGoal_status_never_worse (p : SessionPayload.t) (g : TherapyGoal.t) :
  0 < TherapyGoal.target g ->
  consistent g ->
  0 <= SessionPayload.rating p ->
  (statusRank (TherapyGoal.status g)
   <= statusRank (TherapyGoal.status (advanceGoal p g)))%nat /\
  (In (TherapyGoal.id g) (SessionPayload.goalIds p) ->
   TherapyGoal.target g
   <= TherapyGoal.current g + increment (SessionPayload.rating p) ->
   TherapyGoal.status (advanceGoal p g) = on_track).
Proof.
  intros Ht Hcons Hrating.
  pose proof (increment_nonneg _ Hrating) as Hinc.
  unfold consistent in Hcons. rewrite updateGoalStatus_tier in Hcons by exact Ht.
  assert (Hst : forall c,
             TherapyGoal.status (reclassify g c)
             = tier (Qmin (TherapyGoal.target g) c / TherapyGoal.target g)).
  { intros c. unfold reclassify. now rewrite updateGoalStatus_tier. }
  split.
  - unfold advanceGoal. destruct (negb _); [lia|].
    rewrite Hst, <- Hcons.
    destruct (Qmin_cases (TherapyGoal.target g)
                (TherapyGoal.current g + increment (SessionPayload.rating p)))
      as [[-> _] | [-> _]].
    + rewrite tier_full by exact Ht. apply statusRank_le_2.
    + apply tier_mono, div_le_div; [exact Ht | lra].
  - intros Hin Hreach. rewrite advanceGoal_included by exact Hin. rewrite Hst.
    destruct (Qmin_cases (TherapyGoal.target g)
                (TherapyGoal.current g + increment (SessionPayload.rating p)))
      as [[-> _] | [_ Hlt]]; [now apply tier_full | lra].
Qed.

Lemma advanceGoal_status_never_worse_witness :
  let g := Sample.goal "g2" 50 100 at_risk in
  let p := Sample.payload "c2" "Play skills" 5 ["g2"%string] in
  (statusRank (TherapyGoal.status g)
   <= statusRank (TherapyGoal.status (advanceGoal p g)))%nat.
Proof.
  intros g p. apply (advanceGoal_status_never_worse p g).
  - reflexivity.
  - reflexivity.
  - discriminate.
Defined.

(** X12. For a goal whose progress does not exceed its target and a rating
    that is not negative, [handleAddSession]'s goal update never lowers the
    progress and never takes it past the target. *)
Theorem advanceGoal_progress_monotone (p : SessionPayload.t) (g : TherapyGoal.t) :
  capped g ->
  0 <= SessionPayload.rating p ->
  TherapyGoal.current g <= TherapyGoal.current (advanceGoal p g) /\
  TherapyGoal.current (advanceGoal p g) <= TherapyGoal.target g.
Proof.
  intros Hcap Hrating. unfold capped in Hcap.
  pose proof (increment_nonneg _ Hrating) as Hinc.
  unfold advanceGoal. destruct (negb _); [split; [lra | exact Hcap]|].
  rewrite reclassify_current.
  destruct (Qmin_cases (TherapyGoal.target g)
              (TherapyGoal.current g + increment (SessionPayload.rating p)))
    as [[-> H] | [-> H]]; split; lra.
Qed.

Lemma advanceGoal_progress_monotone_witness :
  let g := Sample.goal "g1" 90 100 on_track in
  let p := Sample.payload "c1" "Play skills" 5 ["g1"%string] in
  TherapyGoal.current g <= TherapyGoal.current (advanceGoal p g) /\
  TherapyGoal.current (advanceGoal p g) <= TherapyGoal.target g.
Proof.
  intros g p. apply (advanceGoal_progress_monotone p g).
  - unfold capped. simpl. discriminate.
  - discriminate.
Defined.

Lemma capped_advanceGoal (p : SessionPayload.t) (g : TherapyGoal.t) :
  capped g -> capped (advanceGoal p g).
Proof.
  intros Hcap. unfold capped in *. unfold advanceGoal.
  destruct (negb _); [exact Hcap|].
  rewrite reclassify_current.
  change (TherapyGoal.target (reclassify g _)) with (TherapyGoal.target g).
  destruct (Qmin_cases (TherapyGoal.target g)
              (TherapyGoal.current g + increment (SessionPayload.rating p)))
    as [[-> H] | [-> H]]; lra.
Qed.

Lemma rosterCapped_handleAddSession
    (newId : jsstring) (p : SessionPayload.t) (s : AppState) :
  rosterCapped (children s) -> rosterCapped (children (handleAddSession newId p s)).
Proof.
  intros H. unfold handleAddSession.
  destruct (negb _); [exact H|]. simpl.
  unfold rosterCapped in *. rewrite Forall_map.
  eapply Forall_impl; [exact H|]. intros c Hc. simpl.
  unfold addSessionToChild. destruct (negb _); [exact Hc|]. simpl.
  rewrite Forall_map. eapply Forall_impl; [exact Hc|].
  intros g Hg. now apply capped_advanceGoal.
Qed.

(** X13. Progress stays within its target: from a roster in which no goal's
    [current] exceeds its [target], every state reached, by any sequence of
    events and for any ratings, has such a roster again. *)
Theorem progress_capped_invariant
    (therapists : list TherapistProfile.t) (parents : list ParentProfile.t)
    (donors : list DonorProfile.t) (s0 s : AppState) :
  rosterCapped (children s0) ->
  reachable therapists parents donors s0 s ->
  rosterCapped (children s).
Proof.
  intros H0 Hreach. induction Hreach as [|s e s' _ IH Hstep]; [exact H0|].
  destruct (step_children therapists parents donors e s s' Hstep)
    as [-> | (newId & p & _ & ->)];
    [exact IH | now apply rosterCapped_handleAddSession].
Qed.

Lemma progress_capped_invariant_witness :
  let s0 := Sample.state [Sample.c1; Sample.c2] therapist "t1" "p1" "d1" "c1" in
  let p := Sample.payload "c1" "Play skills" 5 ["g1"%string] in
  rosterCapped (children (handleAddSession (js "s-new") p s0)).
Proof.
  intros s0 p.
  apply (progress_capped_invariant [] [] [] s0).
  - repeat constructor; unfold capped; simpl; discriminate.
  - apply (reach_step [] [] [] s0 s0 (AddSession (js "s-new") p));
      [apply reach_init | reflexivity].
Defined.

(** ** Metrics after a session *)

Lemma on_track_kept (p : SessionPayload.t) (g : TherapyGoal.t) :
  0 < TherapyGoal.target g ->
  consistent g ->
  0 <= SessionPayload.rating p ->
  isOnTrack (TherapyGoal.status g) = true ->
  isOnTrack (TherapyGoal.status (advanceGoal p g)) = true.
Proof.
  intros Ht Hcons Hrating Hon.
  pose proof (advanceGoal_status_never_worse_aux p g Ht Hcons Hrating) as Hrank.
  destruct (TherapyGoal.status g); try discriminate Hon.
  destruct (TherapyGoal.status (advanceGoal p g)); simpl in *; [reflexivity | lia | lia].
Qed.

Lemma needing_support_advanceGoal (p : SessionPayload.t) (gs : list TherapyGoal.t) :
  Forall (fun g => 0 < TherapyGoal.target g /\ consistent g) gs ->
  0 <= SessionPayload.rating p ->
  (length (List.filter (fun goal => negb (isOnTrack (TherapyGoal.status goal)))
                       (map (advanceGoal p) gs))
   <= length (List.filter (fun goal => negb (isOnTrack (TherapyGoal.status goal))) gs))%nat.
Proof.
  intros Hgs Hrating. induction Hgs as [|g gs [Ht Hcons] _ IH]; simpl; [lia|].
  destruct (isOnTrack (TherapyGoal.status g)) eqn:E; simpl.
  - rewrite (on_track_kept p g Ht Hcons Hrating E). simpl. exact IH.
  - destruct (isOnTrack (TherapyGoal.status (advanceGoal p g))); simpl; lia.
Qed.

(** X14. Logging a session never raises the number of goals needing
    support: on a roster whose goals have positive targets and carry the
    status the engine computes, and for a rating that is not negative,
    [atRiskGoals] after [handleAddSession] is at most what it was. *)
Theorem atRiskGoals_never_increases
    (newId : jsstring) (p : SessionPayload.t) (s : AppState) :
  Forall (fun c => Forall (fun g => 0 < TherapyGoal.target g /\ consistent g)
                          (ChildProfile.therapyGoals c)) (children s) ->
  0 <= SessionPayload.rating p ->
  (atRiskGoals (children (handleAddSession newId p s)) <= atRiskGoals (children s))%nat.
Proof.
  intros Hroster Hrating. unfold handleAddSession.
  destruct (negb _); [lia|]. simpl. unfold atRiskGoals, allGoals.
  induction Hroster as [|c cs Hc _ IH]; simpl; [lia|].
  rewrite !List.filter_app, !List.length_app.
  apply Nat.add_le_mono; [|exact IH].
  unfold addSessionToChild. destruct (negb _); [lia|]. simpl.
  now apply needing_support_advanceGoal.
Qed.

Lemma atRiskGoals_never_increases_witness :
  let s := Sample.state [Sample.c1; Sample.c2; Sample.c5] therapist "t1" "p1" "d1" "c1" in
  let p := Sample.payload "c5" "Play skills" 5 ["g5"%string] in
  (atRiskGoals (children (handleAddSession (js "s-new") p s)) <= atRiskGoals (children s))%nat.
Proof.
  intros s p. apply atRiskGoals_never_increases.
  - repeat constructor.
  - discriminate.
Defined.

Lemma filter_length_impl {A : Type} (f g : A -> bool) (l : list A) :
  (forall x, f x = true -> g x = true) ->
  (length (List.filter f l) <= length (List.filter g l))%nat.
Proof.
  intros Himpl. induction l as [|a l IH]; simpl; [lia|].
  destruct (f a) eqn:E.
  - rewrite (Himpl a E). simpl. lia.
  - destruct (g a); simpl; lia.
Qed.

Section WeekAfterSession.

Variable parseDate : jsstring -> option Z.
Variable LocalTZA : Z -> bool -> Z.
Variable YearFromTime : Z -> Z.
Variable MonthFromTime : Z -> Z.
Variable DayOfMonthStart : Z -> Z -> Z.

(** At one reading of the clock, the count over the roster after a session
    and the count over the roster before it. *)
Lemma thisWeekSessions_same_clock
    (now : Z) (newId : jsstring) (p : SessionPayload.t) (s : AppState) :
  thisWeekSessions parseDate LocalTZA YearFromTime MonthFromTime DayOfMonthStart now
    (children (handleAddSession newId p s))
  = (thisWeekSessions parseDate LocalTZA YearFromTime MonthFromTime DayOfMonthStart now
       (children s)
     + if truthy (trim (SessionPayload.focus p))
          && date_ge (parseDate (SessionPayload.date p))
                     (weekAgo LocalTZA YearFromTime MonthFromTime DayOfMonthStart now)
       then childrenWithId (children s) (SessionPayload.childId p) else 0)%nat.
Proof.
  unfold handleAddSession.
  destruct (truthy (trim (SessionPayload.focus p))); simpl; [|lia].
  unfold thisWeekSessions, childrenWithId.
  induction (children s) as [|c cs IH]; simpl.
  - now destruct (date_ge _ _).
  - rewrite !List.filter_app, !List.length_app, IH.
    unfold addSessionToChild.
    destruct (bool_decide (ChildProfile.id c = SessionPayload.childId p)); simpl.
    + destruct (date_ge _ _); simpl; lia.
    + destruct (date_ge _ _); simpl; lia.
Qed.

(** A later cut-off counts no more sessions of the same roster. *)
Lemma thisWeekSessions_later_cutoff
    (now now' cutoff cutoff' : Z) (cs : list ChildProfile.t) :
  weekAgo LocalTZA YearFromTime MonthFromTime DayOfMonthStart now = Some cutoff ->
  weekAgo LocalTZA YearFromTime MonthFromTime DayOfMonthStart now' = Some cutoff' ->
  (cutoff <= cutoff')%Z ->
  (thisWeekSessions parseDate LocalTZA YearFromTime MonthFromTime DayOfMonthStart now' cs
   <= thisWeekSessions parseDate LocalTZA YearFromTime MonthFromTime DayOfMonthStart now cs)%nat.
Proof.
  intros Hweek Hweek' Hle. unfold thisWeekSessions. rewrite Hweek, Hweek'.
  apply filter_length_impl. intros x. unfold date_ge.
  destruct (parseDate (TherapySession.date x)) as [t|]; [|discriminate].
  intros H. apply Z.leb_le in H. apply Z.leb_le. lia.
Qed.

(** X15. "Sessions This Week" before and after a logged session, each at
    its own reading of the clock: the figure is recomputed with a new clock
    reading [now'] when the roster changes, the figure shown before having
    been computed at the reading [now].  When the cut-off of [now'] is not
    earlier than that of [now], the new figure is the old roster's count at
    the new cut-off, which is at most the figure shown before (sessions dated
    before the new cut-off drop out), plus the number of children with the
    session's child id (one, when ids are unique) if the focus is not blank
    and the session's date is a date at or after the new cut-off, and plus
    nothing otherwise. *)
Theorem thisWeekSessions_after_session
    (now now' cutoff cutoff' : Z)
    (newId : jsstring) (p : SessionPayload.t) (s : AppState) :
  let metric :=
    thisWeekSessions parseDate LocalTZA YearFromTime MonthFromTime DayOfMonthStart in
  let added :=
    if truthy (trim (SessionPayload.focus p))
       && date_ge (parseDate (SessionPayload.date p)) (Some cutoff')
    then childrenWithId (children s) (SessionPayload.childId p) else 0%nat in
  weekAgo LocalTZA YearFromTime MonthFromTime DayOfMonthStart now = Some cutoff ->
  weekAgo LocalTZA YearFromTime MonthFromTime DayOfMonthStart now' = Some cutoff' ->
  (cutoff <= cutoff')%Z ->
  metric now' (children (handleAddSession newId p s))
  = (metric now' (children s) + added)%nat /\
  (metric now' (children s) <= metric now (children s))%nat /\
  (metric now' (children (handleAddSession newId p s))
   <= metric now (children s) + added)%nat.
Proof.
  intros metric added Hweek Hweek' Hle.
  assert (Hsame : metric now' (children (handleAddSession newId p s))
                  = (metric now' (children s) + added)%nat).
  { unfold metric, added. rewrite thisWeekSessions_same_clock. now rewrite Hweek'. }
  pose proof (thisWeekSessions_later_cutoff now now' cutoff cutoff' (children s)
                Hweek Hweek' Hle) as Hdrop.
  fold metric in Hdrop. split; [exact Hsame|]. split; [exact Hdrop|].
  rewrite Hsame. lia.
Qed.

End WeekAfterSession.

(** In UTC, a minute after midnight of 2025-03-12: the stored session dated
    2025-03-05T00:00Z, counted at midnight, has dropped out, and the session
    logged for 2030 counts. *)
Lemma thisWeekSessions_after_session_witness :
  let metric :=
    thisWeekSessions Sample.parseDate Sample.utcZone Sample.noCalendar
                     Sample.noCalendar Sample.noMonths in
  let s := Sample.state [Sample.c6; Sample.c2] therapist "t1" "p1" "d1" "c6" in
  let p := SessionPayload.mk (js "c6") (js "Play skills") (js "") 4 (js "2030-01-01")
             [js "g6"] (js "t1") in
  metric Sample.march12 (children s) = 2%nat /\
  metric (Sample.march12 + 60000)%Z (children (handleAddSession (js "s-new") p s))
  = (metric (Sample.march12 + 60000)%Z (children s) + 1)%nat /\
  (metric (Sample.march12 + 60000)%Z (children s) <= metric Sample.march12 (children s))%nat /\
  (metric (Sample.march12 + 60000)%Z (children (handleAddSession (js "s-new") p s))
   <= metric Sample.march12 (children s) + 1)%nat.
Proof.
  intros metric s p. split; [reflexivity|].
  apply (thisWeekSessions_after_session Sample.parseDate Sample.utcZone
           Sample.noCalendar Sample.noCalendar Sample.noMonths
           Sample.march12 (Sample.march12 + 60000)%Z
           (Sample.march12 - 7 * msPerDay)%Z
           (Sample.march12 + 60000 - 7 * msPerDay)%Z (js "s-new") p s).
  - reflexivity.
  - reflexivity.
  - vm_compute. discriminate.
Defined.

(** ** The dashboard average *)

Lemma len_cons {A : Type} (a : A) (l : list A) : len (a :: l) == len l + 1.
Proof.
  unfold len. simpl length. rewrite Nat2Z.inj_succ, <- Z.add_1_r, inject_Z_plus.
  reflexivity.
Qed.

Lemma Qsum_bounds (lo hi : Q) (l : list TherapyGoal.t) :
  (forall g, In g l -> lo <= TherapyGoal.current g /\ TherapyGoal.current g <= hi) ->
  len l * lo <= Qsum (map TherapyGoal.current l) /\
  Qsum (map TherapyGoal.current l) <= len l * hi.
Proof.
  induction l as [|g l IH]; intros H.
  - unfold len. cbn [length map Qsum fold_right].
    change (inject_Z (Z.of_nat 0)) with 0. split; lra.
  - destruct IH as [IHlo IHhi]; [intros x Hx; apply H; now right|].
    destruct (H g (or_introl eq_refl)) as [Hlo Hhi].
    simpl map. simpl Qsum. rewrite len_cons. split; nra.
Qed.

Lemma round_half_up_between (q : Q) (lo hi : Z) :
  inject_Z lo <= q -> q <= inject_Z hi ->
  (lo <= round_half_up q <= hi)%Z.
Proof.
  intros Hlo Hhi. destruct (round_half_up_nearest q) as [Hn1 Hn2].
  set (n := round_half_up q) in *. split.
  - assert (H : inject_Z lo < inject_Z (n + 1)).
    { rewrite inject_Z_plus. change (inject_Z 1) with 1. lra. }
    rewrite <- Zlt_Qlt in H. lia.
  - assert (H : inject_Z n < inject_Z (hi + 1)).
    { rewrite inject_Z_plus. change (inject_Z 1) with 1. lra. }
    rewrite <- Zlt_Qlt in H. lia.
Qed.

(** X16. The dashboard's average goal progress is always a whole number,
    never NaN: it is 0 for a roster without goals, and when every goal's
    progress lies between two whole numbers [lo] and [hi] (0 and 100 for
    percentages), so does the average. *)
Theorem averageGoalProgress_bounded (cs : list ChildProfile.t) (lo hi : Z) :
  (forall g, In g (allGoals cs) ->
             inject_Z lo <= TherapyGoal.current g /\
             TherapyGoal.current g <= inject_Z hi) ->
  exists n : Z,
    averageGoalProgress cs = Fin (inject_Z n) /\
    (allGoals cs = [] -> n = 0%Z) /\
    (allGoals cs <> [] -> (lo <= n <= hi)%Z).
Proof.
  intros Hbounds. unfold averageGoalProgress.
  destruct (allGoals cs) as [|g l] eqn:E.
  - exists 0%Z. split; [reflexivity|]. split; [reflexivity|]. intros Hne. contradiction.
  - rewrite js_div_pos by apply len_pos. simpl Math_round.
    eexists. split; [reflexivity|]. split; [discriminate|]. intros _.
    destruct (Qsum_bounds _ _ (g :: l) Hbounds) as [Hlo Hhi].
    pose proof (fold_current_Qsum (g :: l) 0) as Hsum.
    pose proof (len_pos g l) as Hlen.
    apply round_half_up_between.
    + apply Qle_shift_div_l; [exact Hlen|]. rewrite Hsum. lra.
    + apply Qle_shift_div_r; [exact Hlen|]. rewrite Hsum. lra.
Qed.

Lemma averageGoalProgress_bounded_witness :
  exists n : Z,
    averageGoalProgress [Sample.c1; Sample.c2; Sample.c5] = Fin (inject_Z n) /\
    (allGoals [Sample.c1; Sample.c2; Sample.c5] = [] -> n = 0%Z) /\
    (allGoals [Sample.c1; Sample.c2; Sample.c5] <> [] -> (0 <= n <= 100)%Z).
Proof.
  apply (averageGoalProgress_bounded [Sample.c1; Sample.c2; Sample.c5] 0 100).
  intros g Hg. simpl in Hg.
  destruct Hg as [<- | [<- | [<- | []]]]; split; discriminate.
Defined.

(** ** Family updates *)

(** X17. A family update with a text that is not blank, for a child id that
    already has a list or is no inherited property name, completes and puts
    one new entry (the trimmed text, with the id and time the host gave) in
    front of that child's list, a list that did not exist counting as empty;
    the lists of all other child ids, the roster and the selection are as
    before. *)
Theorem handleAddFamilyUpdate_prepends
    (newId nowIso childId message : jsstring) (s : AppState) :
  trim message <> [] ->
  familyUpdates s !! childId <> None \/ ~ In childId objectPrototypeKeys ->
  exists s',
    handleAddFamilyUpdate newId nowIso childId message s = Done s' /\
    familyUpdates s' !! childId
    = Some (FamilyUpdate.mk newId (trim message) nowIso
              :: default [] (familyUpdates s !! childId)) /\
    (forall k, k <> childId -> familyUpdates s' !! k = familyUpdates s !! k) /\
    children s' = children s /\
    selectedRole s' = selectedRole s /\
    selectedTherapistId s' = selectedTherapistId s /\
    selectedParentId s' = selectedParentId s /\
    selectedDonorId s' = selectedDonorId s /\
    selectedChildId s' = selectedChildId s.
Proof.
  intros Htext Hkey. unfold handleAddFamilyUpdate.
  destruct (trim message) as [|n t] eqn:Et; [contradiction|]. simpl negb. cbv iota.
  destruct (familyUpdates s !! childId) as [existing|] eqn:El.
  - eexists. split; [reflexivity|]. state_fields.
    split; [apply lookup_insert_eq|]. split; [|repeat split].
    intros k Hk. now apply lookup_insert_ne.
  - destruct Hkey as [Hkey | Hkey]; [contradiction|].
    destruct (includes objectPrototypeKeys childId) eqn:Ei.
    + apply includes_In in Ei. contradiction.
    + eexists. split; [reflexivity|]. state_fields.
      split; [apply lookup_insert_eq|]. split; [|repeat split].
      intros k Hk. now apply lookup_insert_ne.
Qed.

Lemma handleAddFamilyUpdate_prepends_witness :
  exists s',
    handleAddFamilyUpdate (js "u1") (js "2025-03-12T09:00:00.000Z") (js "c1")
                          (js " hello ") (Sample.start [Sample.c1]) = Done s' /\
    familyUpdates s' !! js "c1"
    = Some [FamilyUpdate.mk (js "u1") (js "hello") (js "2025-03-12T09:00:00.000Z")].
Proof.
  destruct (handleAddFamilyUpdate_prepends
              (js "u1") (js "2025-03-12T09:00:00.000Z") (js "c1") (js " hello ")
              (Sample.start [Sample.c1])) as (s' & Hdone & Hlookup & _).
  - vm_compute. discriminate.
  - right. vm_compute. intuition discriminate.
  - exists s'. split; [exact Hdone | exact Hlookup].
Defined.

Lemma handleAddFamilyUpdate_throws_aux
    (newId nowIso childId message : jsstring) (s : AppState) :
  trim message <> [] ->
  familyUpdates s !! childId = None ->
  In childId objectPrototypeKeys ->
  handleAddFamilyUpdate newId nowIso childId message s = TypeError.
Proof.
  intros Htext Hnone Hk. unfold handleAddFamilyUpdate.
  destruct (trim message); [contradiction|]. simpl negb. cbv iota.
  rewrite Hnone. apply includes_In in Hk. now rewrite Hk.
Qed.

(** X18. [handleAddFamilyUpdate] throws in exactly one situation: the text
    is not blank, the child id has no list yet, and the child id is a
    property name every object inherits ("constructor", "toString",
    "__proto__", ...), under which [prev[childId]] is not a list. *)
Theorem handleAddFamilyUpdate_throws_iff
    (newId nowIso childId message : jsstring) (s : AppState) :
  handleAddFamilyUpdate newId nowIso childId message s = TypeError
  <-> trim message <> [] /\
      familyUpdates s !! childId = None /\
      In childId objectPrototypeKeys.
Proof.
  unfold handleAddFamilyUpdate.
  destruct (trim message) as [|n t] eqn:Et; simpl negb; cbv iota.
  - split; [discriminate | intros [H _]; contradiction].
  - destruct (familyUpdates s !! childId) as [existing|] eqn:El.
    + split; [discriminate | intros (_ & H & _); discriminate].
    + destruct (includes objectPrototypeKeys childId) eqn:Ei.
      * apply includes_In in Ei. split; [|reflexivity].
        intros _. repeat split; [discriminate | exact Ei].
      * split; [discriminate|]. intros (_ & _ & H).
        apply includes_In in H. congruence.
Qed.

Section UpdateFacts.

Variable therapists : list TherapistProfile.t.
Variable parents : list ParentProfile.t.
Variable donors : list DonorProfile.t.

Lemma step_familyUpdates (e : event) (s s' : AppState) (k : jsstring) :
  step therapists parents donors e s = Done s' ->
  familyUpdates s !! k = None ->
  In k objectPrototypeKeys ->
  familyUpdates s' !! k = None.
Proof.
  intros Hstep Hnone Hk.
  destruct e as [role|i|i|i|i|newId p|newId nowIso childId message]; simpl in Hstep.
  - injection Hstep as <-. unfold handleRoleSelect.
    destruct role; [exact Hnone|..];
      match goal with |- context [nullish ?a ?b] => destruct (nullish a b) end;
      exact Hnone.
  - injection Hstep as <-. unfold handleTherapistChange.
    destruct (findTherapist _ _); exact Hnone.
  - injection Hstep as <-. unfold handleParentChange.
    destruct (findParent _ _); exact Hnone.
  - injection Hstep as <-. unfold handleDonorChange.
    destruct (findDonor _ _); exact Hnone.
  - injection Hstep as <-. exact Hnone.
  - injection Hstep as <-. unfold handleAddSession.
    destruct (negb _); exact Hnone.
  - unfold handleAddFamilyUpdate in Hstep.
    destruct (negb _); [now injection Hstep as <-|].
    destruct (familyUpdates s !! childId) as [existing|] eqn:El.
    + injection Hstep as <-. state_fields.
      rewrite lookup_insert_ne; [exact Hnone | congruence].
    + destruct (includes objectPrototypeKeys childId) eqn:Ei; [discriminate|].
      injection Hstep as <-. state_fields.
      rewrite lookup_insert_ne; [exact Hnone|].
      intros ->. apply includes_In in Hk. congruence.
Qed.

Lemma reachable_no_inherited_list (s0 s : AppState) (k : jsstring) :
  reachable therapists parents donors s0 s ->
  familyUpdates s0 !! k = None ->
  In k objectPrototypeKeys ->
  familyUpdates s !! k = None.
Proof.
  induction 1 as [|s e s' _ IH Hstep]; intros H0 Hk; [exact H0|].
  exact (step_familyUpdates e s s' k Hstep (IH H0 Hk) Hk).
Qed.

End UpdateFacts.

(** X19. A child whose id is a property name every object inherits can never
    be sent a family update: in every state reached from one in which that
    id has no list (the initial state has no list at all), a family update
    for it with a text that is not blank throws. *)
Theorem inherited_child_id_never_updatable
    (therapists : list TherapistProfile.t) (parents : list ParentProfile.t)
    (donors : list DonorProfile.t) (s0 s : AppState)
    (newId nowIso childId message : jsstring) :
  reachable therapists parents donors s0 s ->
  familyUpdates s0 !! childId = None ->
  In childId objectPrototypeKeys ->
  trim message <> [] ->
  handleAddFamilyUpdate newId nowIso childId message s = TypeError.
Proof.
  intros Hreach H0 Hk Htext.
  apply handleAddFamilyUpdate_throws_aux; [exact Htext | | exact Hk].
  exact (reachable_no_inherited_list therapists parents donors s0 s childId Hreach H0 Hk).
Qed.

Lemma inherited_child_id_never_updatable_witness :
  let s0 := Sample.start [Sample.c1] in
  handleAddFamilyUpdate (js "u3") (js "2025-03-12T09:06:00.000Z") (js "constructor")
    (js "hello")
    (handleRoleSelect [] [] [] parent s0)
  = TypeError.
Proof.
  intros s0.
  apply (inherited_child_id_never_updatable [] [] [] s0).
  - apply (reach_step [] [] [] s0 s0 (RoleSelect parent));
      [apply reach_init | reflexivity].
  - reflexivity.
  - vm_compute. tauto.
  - vm_compute. discriminate.
Defined.

Lemma updates_after_post
    (newId nowIso message : jsstring) (child : ChildProfile.t) (s : AppState)
    (old : list FamilyUpdate.t) :
  ParentUpdatePanel.updates child s = Some old ->
  exists s',
    fst (ParentUpdatePanel.handleSubmit newId nowIso child message s) = Done s' /\
    ParentUpdatePanel.updates child s'
    = Some (if truthy (trim message)
            then FamilyUpdate.mk newId (trim message) nowIso :: old
            else old).
Proof.
  intros Hold. unfold ParentUpdatePanel.handleSubmit. cbn [fst].
  unfold handleAddFamilyUpdate.
  destruct (truthy (trim message)); cbn [negb]; [|now exists s].
  unfold ParentUpdatePanel.updates in *.
  destruct (familyUpdates s !! ChildProfile.id child) as [existing|] eqn:El.
  - injection Hold as <-. eexists. split; [reflexivity|]. state_fields.
    now rewrite lookup_insert_eq.
  - destruct (includes objectPrototypeKeys (ChildProfile.id child)); [discriminate|].
    injection Hold as <-. eexists. split; [reflexivity|]. state_fields.
    now rewrite lookup_insert_eq.
Qed.

(** X20. The parent panel lists updates newest first: after any number of
    submits for a child whose list the panel can show, the list shown is the
    entries of the submits whose text was not blank, last submit first, each
    with its text trimmed, in front of the list shown before; blank submits
    leave no trace and no submit throws. *)
Theorem postUpdates_newest_first
    (posts : list (jsstring * jsstring * jsstring)) (child : ChildProfile.t)
    (s : AppState) (old : list FamilyUpdate.t) :
  ParentUpdatePanel.updates child s = Some old ->
  exists s',
    postUpdates posts child s = Done s' /\
    ParentUpdatePanel.updates child s' = Some (rev (postedEntries posts) ++ old).
Proof.
  revert s old. induction posts as [|[[newId nowIso] message] rest IH]; intros s old Hold.
  - exists s. split; [reflexivity | exact Hold].
  - destruct (updates_after_post newId nowIso message child s old Hold)
      as (s1 & Hs1 & Hupd).
    cbn [postUpdates]. rewrite Hs1.
    destruct (IH s1 _ Hupd) as (s' & Hs' & Hfinal).
    exists s'. split; [exact Hs'|]. rewrite Hfinal. f_equal.
    unfold postedEntries. simpl List.filter.
    destruct (truthy (trim message)); [|reflexivity].
    simpl. now rewrite <- app_assoc.
Qed.

Lemma postUpdates_newest_first_witness :
  let posts := [(js "u1", js "09:00", js " first ");
                (js "u2", js "09:05", js "   ");
                (js "u3", js "09:10", js "second")] in
  exists s',
    postUpdates posts Sample.c1 (Sample.start [Sample.c1]) = Done s' /\
    ParentUpdatePanel.updates Sample.c1 s'
    = Some [FamilyUpdate.mk (js "u3") (js "second") (js "09:10");
            FamilyUpdate.mk (js "u1") (js "first") (js "09:00")].
Proof.
  intros posts.
  apply (postUpdates_newest_first posts Sample.c1 (Sample.start [Sample.c1]) []).
  reflexivity.
Defined.

(** ** The session form *)

Lemma filter_neq_In (g x : jsstring) (l : list jsstring) :
  In x (List.filter (fun i => negb (bool_decide (i = g))) l) <-> In x l /\ x <> g.
Proof.
  rewrite List.filter_In. split; intros [Hin H]; split; auto.
  - apply negb_true_iff, bool_decide_eq_false in H. exact H.
  - apply negb_true_iff, bool_decide_eq_false. exact H.
Qed.

Lemma filter_neq_absent (g : jsstring) (l : list jsstring) :
  ~ In g l -> List.filter (fun i => negb (bool_decide (i = g))) l = l.
Proof.
  induction l as [|a l IH]; simpl; intros H; [reflexivity|].
  rewrite bool_decide_eq_false_2 by (intros ->; apply H; now left).
  simpl. rewrite IH; [reflexivity|]. intros Hin. apply H. now right.
Qed.

Lemma NoDup_filter_neq (g : jsstring) (l : list jsstring) :
  List.NoDup l -> List.NoDup (List.filter (fun i => negb (bool_decide (i = g))) l).
Proof.
  induction 1 as [|a l Ha _ IH]; simpl; [constructor|].
  destruct (negb _); [|exact IH]. constructor; [|exact IH].
  intros Hin. apply filter_neq_In in Hin. now apply Ha.
Qed.

Lemma NoDup_snoc (g : jsstring) (l : list jsstring) :
  List.NoDup l -> ~ In g l -> List.NoDup (l ++ [g]).
Proof.
  induction 1 as [|a l Ha _ IH]; simpl; intros Hg.
  - constructor; [intros [] | constructor].
  - constructor.
    + intros Hin. apply in_app_or in Hin as [Hin | [<- | []]]; [now apply Ha|].
      apply Hg. now left.
    + apply IH. intros Hin. apply Hg. now right.
Qed.

(** X21. A goal chip is a toggle: after [toggleGoal] the goal is selected
    exactly if it was not before, and every other goal is selected exactly if
    it was before; a selection without duplicates stays without duplicates;
    toggling a goal that was not selected twice gives back the form as it
    was; date, focus, notes and rating are not touched. *)
Theorem toggleGoal_flips (goalId : jsstring) (f : TherapistLogForm.t) :
  let f' := TherapistLogForm.toggleGoal goalId f in
  (In goalId (TherapistLogForm.selectedGoalIds f')
   <-> ~ In goalId (TherapistLogForm.selectedGoalIds f)) /\
  (forall x, x <> goalId ->
             (In x (TherapistLogForm.selectedGoalIds f')
              <-> In x (TherapistLogForm.selectedGoalIds f))) /\
  (List.NoDup (TherapistLogForm.selectedGoalIds f) ->
   List.NoDup (TherapistLogForm.selectedGoalIds f')) /\
  (~ In goalId (TherapistLogForm.selectedGoalIds f) ->
   TherapistLogForm.toggleGoal goalId f' = f) /\
  (TherapistLogForm.date f' = TherapistLogForm.date f /\
   TherapistLogForm.focus f' = TherapistLogForm.focus f /\
   TherapistLogForm.notes f' = TherapistLogForm.notes f /\
   TherapistLogForm.rating f' = TherapistLogForm.rating f).
Proof.
  destruct f as [d fo no ra sel]. unfold TherapistLogForm.toggleGoal. simpl.
  destruct (includes sel goalId) eqn:E.
  - apply includes_In in E. repeat split; try tauto.
    + intros Hin. apply filter_neq_In in Hin. tauto.
    + intros Hin. apply filter_neq_In in Hin. tauto.
    + intros Hin. apply filter_neq_In. tauto.
    + apply NoDup_filter_neq.
  - assert (Hn : ~ In goalId sel).
    { intros Hin. apply includes_In in Hin. congruence. }
    repeat split; try tauto.
    + intros _. apply in_or_app. right. now left.
    + intros Hin. apply in_app_or in Hin as [Hin | [Hin | []]]; [exact Hin | congruence].
    + intros Hin. apply in_or_app. now left.
    + intros Hnd. now apply NoDup_snoc.
    + intros _.
      assert (Hi : includes (sel ++ [goalId]) goalId = true).
      { apply includes_In, in_or_app. right. now left. }
      rewrite Hi. f_equal. rewrite List.filter_app. simpl.
      rewrite bool_decide_eq_true_2 by reflexivity. simpl.
      rewrite filter_neq_absent by exact Hn. apply app_nil_r.
Qed.

Lemma In_firstn {A : Type} (n : nat) (l : list A) (x : A) :
  In x (firstn n l) -> In x l.
Proof.
  intros H. rewrite <- (firstn_skipn n l). apply in_or_app. now left.
Qed.

Lemma NoDup_map_firstn {A B : Type} (f : A -> B) (n : nat) (l : list A) :
  List.NoDup (map f l) -> List.NoDup (map f (firstn n l)).
Proof.
  revert n. induction l as [|a l IH]; intros [|n] H; simpl; try constructor.
  - inversion H as [|? ? Ha Hl]; subst. intros Hin. apply Ha.
    apply in_map_iff in Hin as (y & Hy & Hin). apply in_map_iff.
    exists y. split; [exact Hy | now apply In_firstn in Hin].
  - inversion H; subst. now apply IH.
Qed.

Lemma toggleGoal_keeps_selection_within
    (goalId : jsstring) (f : TherapistLogForm.t) (ids : list jsstring) :
  In goalId ids ->
  (forall x, In x (TherapistLogForm.selectedGoalIds f) -> In x ids) ->
  forall x, In x (TherapistLogForm.selectedGoalIds (TherapistLogForm.toggleGoal goalId f))
            -> In x ids.
Proof.
  intros Hg Hsub x. unfold TherapistLogForm.toggleGoal. simpl.
  destruct (includes _ _).
  - intros H. apply filter_neq_In in H. apply Hsub. tauto.
  - intros H. apply in_app_or in H as [H | [<- | []]]; auto.
Qed.

Lemma toggleGoal_keeps_NoDup (goalId : jsstring) (f : TherapistLogForm.t) :
  List.NoDup (TherapistLogForm.selectedGoalIds f) ->
  List.NoDup (TherapistLogForm.selectedGoalIds (TherapistLogForm.toggleGoal goalId f)).
Proof.
  intros Hnd. unfold TherapistLogForm.toggleGoal. simpl.
  destruct (includes _ _) eqn:E.
  - now apply NoDup_filter_neq.
  - apply NoDup_snoc; [exact Hnd|]. intros H. apply includes_In in H. congruence.
Qed.

Lemma reached_invariant
    (today : jsstring) (child : ChildProfile.t) (f : TherapistLogForm.t) :
  LogFormSession.reached today child f ->
  (forall x, In x (TherapistLogForm.selectedGoalIds f) ->
             In x (map TherapyGoal.id (ChildProfile.therapyGoals child))) /\
  (exists r : Z, TherapistLogForm.rating f = inject_Z r /\ (1 <= r <= 5)%Z) /\
  (List.NoDup (map TherapyGoal.id (ChildProfile.therapyGoals child)) ->
   List.NoDup (TherapistLogForm.selectedGoalIds f)).
Proof.
  induction 1 as [|f i _ (IHsub & IHrate & IHnd) Hi|f th _ (IHsub & IHrate & IHnd)].
  - simpl. repeat split.
    + intros x Hx. apply in_map_iff in Hx as (g & Hg & Hin).
      apply in_map_iff. exists g. split; [exact Hg | now apply In_firstn in Hin].
    + exists 3%Z. split; [reflexivity | lia].
    + apply NoDup_map_firstn.
  - destruct i as [v|v|v|r|goalId]; simpl in *; try (repeat split; assumption).
    + repeat split; try assumption. exists r. split; [reflexivity | exact Hi].
    + repeat split.
      * now apply toggleGoal_keeps_selection_within.
      * exact IHrate.
      * intros Hnd. apply toggleGoal_keeps_NoDup. now apply IHnd.
  - unfold TherapistLogForm.handleSubmit.
    destruct (TherapistLogForm.selectedGoalIds f) eqn:E; simpl.
    + rewrite E. repeat split; assumption.
    + repeat split; assumption.
Qed.

(** X22. What the form can hand to [handleAddSession]: between mount and
    unmount, for the child it is rendered for, every payload a submit passes
    on has that child's id and the therapist's id, a goal set that is not
    empty and holds only ids of that child's goals (without duplicates when
    the child's goal ids have none), and a whole-number rating from 1 to 5,
    hence an increment of 2, 3, 5, 6 or 8; the submit clears focus and notes
    and keeps date, rating and goal selection. *)
Theorem form_submits_own_goals
    (today : jsstring) (child : ChildProfile.t) (th : TherapistProfile.t)
    (f f' : TherapistLogForm.t) (p : SessionPayload.t) :
  LogFormSession.reached today child f ->
  TherapistLogForm.handleSubmit child th f = (Some p, f') ->
  SessionPayload.childId p = ChildProfile.id child /\
  SessionPayload.therapistId p = TherapistProfile.id th /\
  SessionPayload.goalIds p <> [] /\
  (forall x, In x (SessionPayload.goalIds p) ->
             In x (map TherapyGoal.id (ChildProfile.therapyGoals child))) /\
  (List.NoDup (map TherapyGoal.id (ChildProfile.therapyGoals child)) ->
   List.NoDup (SessionPayload.goalIds p)) /\
  (exists r : Z, SessionPayload.rating p = inject_Z r /\ (1 <= r <= 5)%Z) /\
  In (increment (SessionPayload.rating p)) [2; 3; 5; 6; 8] /\
  (TherapistLogForm.focus f' = [] /\ TherapistLogForm.notes f' = [] /\
   TherapistLogForm.date f' = TherapistLogForm.date f /\
   TherapistLogForm.rating f' = TherapistLogForm.rating f /\
   TherapistLogForm.selectedGoalIds f' = TherapistLogForm.selectedGoalIds f).
Proof.
  intros Hreached Hsubmit.
  destruct (reached_invariant today child f Hreached) as (Hsub & (r & Hr & Hrange) & Hnd).
  unfold TherapistLogForm.handleSubmit in Hsubmit.
  destruct (TherapistLogForm.selectedGoalIds f) as [|g sel] eqn:E; [discriminate|].
  injection Hsubmit as <- <-. simpl.
  split; [reflexivity|]. split; [reflexivity|]. split; [discriminate|].
  split; [exact Hsub|]. split; [exact Hnd|].
  split; [now exists r|]. split; [|repeat split].
  rewrite Hr.
  assert (Hcases : r = 1%Z \/ r = 2%Z \/ r = 3%Z \/ r = 4%Z \/ r = 5%Z) by lia.
  destruct Hcases as [-> | [-> | [-> | [-> | ->]]]]; simpl; tauto.
Qed.

Lemma form_submits_own_goals_witness :
  let th := Sample.therapistProfile "t1" ["c1"%string] in
  let f := LogFormSession.apply (LogFormSession.SetFocus (js "Play skills"))
             (LogFormSession.initial (js "2025-03-12") Sample.c1) in
  exists p f',
    TherapistLogForm.handleSubmit Sample.c1 th f = (Some p, f') /\
    SessionPayload.goalIds p = [js "g1"] /\
    In (increment (SessionPayload.rating p)) [2; 3; 5; 6; 8].
Proof.
  intros th f. eexists. eexists. split; [reflexivity|].
  split; [reflexivity|].
  eapply (form_submits_own_goals (js "2025-03-12") Sample.c1 th f).
  - apply LogFormSession.reached_input; [apply LogFormSession.reached_mount | exact I].
  - reflexivity.
Defined.

(** ** The progress bar *)

Lemma round_half_up_ge (q : Q) (lo : Z) :
  inject_Z lo <= q -> (lo <= round_half_up q)%Z.
Proof.
  intros Hlo. destruct (round_half_up_nearest q) as [_ Hn].
  assert (H : inject_Z lo < inject_Z (round_half_up q + 1)).
  { rewrite inject_Z_plus. change (inject_Z 1) with 1. lra. }
  rewrite <- Zlt_Qlt in H. lia.
Qed.

Lemma round_half_up_le (q : Q) (hi : Z) :
  q <= inject_Z hi -> (round_half_up q <= hi)%Z.
Proof.
  intros Hhi. destruct (round_half_up_nearest q) as [Hn _].
  assert (H : inject_Z (round_half_up q) < inject_Z (hi + 1)).
  { rewrite inject_Z_plus. change (inject_Z 1) with 1. lra. }
  rewrite <- Zlt_Qlt in H. lia.
Qed.

(** The width in the exact arithmetic of this development; where the exact
    product falls on a tie, the doubles of the code can round to the
    neighbouring integer, which the bounds below do not depend on. *)
Lemma percent_value (g : TherapyGoal.t) :
  0 < TherapyGoal.target g ->
  GoalProgressBar.percent g
  = Fin (inject_Z
           (Z.min 100 (round_half_up
                         (TherapyGoal.current g / TherapyGoal.target g * 100)))).
Proof.
  intros Ht. unfold GoalProgressBar.percent. rewrite js_div_pos by exact Ht.
  cbn [js_mul Math_round Math_min]. f_equal.
  set (m := round_half_up _).
  destruct (Qmin_cases 100 (inject_Z m)) as [[-> H] | [-> H]].
  - change 100 with (inject_Z 100) in H. rewrite <- Zle_Qle in H.
    now rewrite Z.min_l.
  - change 100 with (inject_Z 100) in H. rewrite <- Zlt_Qlt in H.
    rewrite Z.min_r by lia. reflexivity.
Qed.

Lemma ratio_scaled_ge (c t k : Q) : 0 < t -> k * t <= c -> k * 100 <= c / t * 100.
Proof.
  intros Ht H. apply Qmult_le_compat_r; [|lra].
  now apply Qle_shift_div_l.
Qed.

Lemma ratio_scaled_le (c t k : Q) : 0 < t -> c <= k * t -> c / t * 100 <= k * 100.
Proof.
  intros Ht H. apply Qmult_le_compat_r; [|lra].
  now apply Qle_shift_div_r.
Qed.

(** X23. The width of a goal's progress bar, for a positive target: a whole
    number of at most 100, not negative when the progress is not negative,
    and exactly 100 once the progress has reached the target; it agrees with
    the status of a goal that carries the status the engine computes, being
    at least 80 for [on_track] and at most 55 for [at_risk]. *)
Theorem percent_bounded (g : TherapyGoal.t) :
  0 < TherapyGoal.target g ->
  exists n : Z,
    GoalProgressBar.percent g = Fin (inject_Z n) /\
    (n <= 100)%Z /\
    (0 <= TherapyGoal.current g -> (0 <= n)%Z) /\
    (TherapyGoal.target g <= TherapyGoal.current g -> n = 100%Z) /\
    (consistent g -> TherapyGoal.status g = on_track -> (80 <= n)%Z) /\
    (consistent g -> TherapyGoal.status g = at_risk -> (n <= 55)%Z).
Proof.
  intros Ht. eexists. split; [now apply percent_value|].
  set (q := TherapyGoal.current g / TherapyGoal.target g * 100).
  split; [lia|]. split; [|split; [|split]].
  - intros Hc. assert (H : (0 <= round_half_up q)%Z); [|lia].
    apply round_half_up_ge. change (inject_Z 0) with (0 * 100).
    apply ratio_scaled_ge; [exact Ht | lra].
  - intros Hc. assert (H : (100 <= round_half_up q)%Z); [|lia].
    apply round_half_up_ge. change (inject_Z 100) with (1 * 100).
    apply ratio_scaled_ge; [exact Ht | lra].
  - intros Hcons Hon. unfold consistent in Hcons.
    rewrite updateGoalStatus_tier, Hon in Hcons by exact Ht.
    apply tier_on_track in Hcons.
    assert (H : (80 <= round_half_up q)%Z); [|lia].
    apply round_half_up_ge. unfold q.
    set (r := TherapyGoal.current g / TherapyGoal.target g) in *.
    change (inject_Z 80) with 80. lra.
  - intros Hcons Hrisk. unfold consistent in Hcons.
    rewrite updateGoalStatus_tier, Hrisk in Hcons by exact Ht.
    apply tier_at_risk in Hcons.
    assert (H : (round_half_up q <= 55)%Z); [|lia].
    apply round_half_up_le. unfold q.
    set (r := TherapyGoal.current g / TherapyGoal.target g) in *.
    change (inject_Z 55) with 55. lra.
Qed.

Lemma percent_bounded_witness :
  exists n : Z,
    GoalProgressBar.percent (Sample.goal "g1" 90 100 on_track) = Fin (inject_Z n) /\
    (n <= 100)%Z.
Proof.
  destruct (percent_bounded (Sample.goal "g1" 90 100 on_track)) as (n & Hn & Hle & _).
  - reflexivity.
  - exists n. split; [exact Hn | exact Hle].
Defined.

Lemma Qsign_zero (x : Q) : x == 0 -> Qsign x = Eq.
Proof. intros H. unfold Qsign. now apply Qeq_alt. Qed.

Lemma Qsign_pos (x : Q) : 0 < x -> Qsign x = Gt.
Proof. intros H. unfold Qsign. now apply Qgt_alt. Qed.

Lemma Qsign_neg (x : Q) : x < 0 -> Qsign x = Lt.
Proof. intros H. unfold Qsign. now apply Qlt_alt. Qed.

(** X24. The progress bar of a goal whose target is 0: the width is NaN when
    the progress is 0 as well, 100 when the progress is positive, and minus
    infinity when it is negative. *)
Theorem percent_zero_target (g : TherapyGoal.t) :
  TherapyGoal.target g == 0 ->
  (TherapyGoal.current g == 0 -> GoalProgressBar.percent g = NaN) /\
  (0 < TherapyGoal.current g -> GoalProgressBar.percent g = Fin 100) /\
  (TherapyGoal.current g < 0 -> GoalProgressBar.percent g = NegInf).
Proof.
  intros Ht. unfold GoalProgressBar.percent, js_div.
  rewrite (Qsign_zero _ Ht). repeat split.
  - intros Hc. now rewrite (Qsign_zero _ Hc).
  - intros Hc. now rewrite (Qsign_pos _ Hc).
  - intros Hc. now rewrite (Qsign_neg _ Hc).
Qed.

Lemma percent_zero_target_witness :
  GoalProgressBar.percent (Sample.goal "g0" 0 0 at_risk) = NaN.
Proof.
  apply (percent_zero_target (Sample.goal "g0" 0 0 at_risk)); reflexivity.
Defined.

(** ** Trimmed texts *)

Lemma trimStart_nil_iff (s : jsstring) :
  trimStart s = [] <-> Forall (fun c => isWhiteSpace c = true) s.
Proof.
  split; [|apply trimStart_whitespace].
  induction s as [|c s IH]; simpl; [constructor|].
  destruct (isWhiteSpace c) eqn:E; [|discriminate].
  intros H. constructor; auto.
Qed.

Lemma trimStart_head (s : jsstring) (c : N) (r : jsstring) :
  trimStart s = c :: r -> isWhiteSpace c = false.
Proof.
  induction s as [|a s IH]; simpl; [discriminate|].
  destruct (isWhiteSpace a) eqn:E; [exact IH|]. now intros [= <- _].
Qed.

Lemma trimStart_fixed (s : jsstring) :
  (forall c r, s = c :: r -> isWhiteSpace c = false) -> trimStart s = s.
Proof.
  destruct s as [|c r]; [reflexivity|]. intros H. simpl.
  now rewrite (H c r eq_refl).
Qed.

Lemma trimStart_idem (s : jsstring) : trimStart (trimStart s) = trimStart s.
Proof.
  apply trimStart_fixed. intros c r H. now apply trimStart_head in H.
Qed.

Lemma trimStart_suffix (s : jsstring) : exists pre, s = pre ++ trimStart s.
Proof.
  induction s as [|c s (pre & IH)]; simpl; [now exists []|].
  destruct (isWhiteSpace c); [|now exists []].
  exists (c :: pre). simpl. now rewrite <- IH.
Qed.

Lemma trimEnd_prefix (s : jsstring) : exists post, s = trimEnd s ++ post.
Proof.
  unfold trimEnd. destruct (trimStart_suffix (rev s)) as (pre & H).
  exists (rev pre). rewrite <- rev_app_distr, <- H. now rewrite rev_involutive.
Qed.

Lemma trimEnd_idem (s : jsstring) : trimEnd (trimEnd s) = trimEnd s.
Proof. unfold trimEnd. now rewrite rev_involutive, trimStart_idem. Qed.

Lemma trimStart_trimEnd (s : jsstring) :
  trimStart s = s -> trimStart (trimEnd s) = trimEnd s.
Proof.
  intros Hs. apply trimStart_fixed. intros c r Hc.
  destruct (trimEnd_prefix s) as (post & Hpost). rewrite Hc in Hpost.
  rewrite Hpost in Hs. simpl in Hs.
  destruct (isWhiteSpace c) eqn:E; [|reflexivity].
  exfalso. destruct (trimStart_suffix (r ++ post)) as (pre & Hpre).
  rewrite Hs in Hpre. apply (f_equal (@length N)) in Hpre.
  rewrite ?length_app in Hpre. simpl in Hpre. rewrite ?length_app in Hpre. lia.
Qed.

Lemma trim_idem (s : jsstring) : trim (trim s) = trim s.
Proof.
  unfold trim. rewrite (trimStart_trimEnd (trimStart s)) by apply trimStart_idem.
  apply trimEnd_idem.
Qed.

Lemma trim_nil_iff (s : jsstring) :
  trim s = [] <-> Forall (fun c => isWhiteSpace c = true) s.
Proof.
  split; [|apply trim_whitespace].
  unfold trim, trimEnd. intros H.
  apply (f_equal (@rev N)) in H. rewrite rev_involutive in H. simpl in H.
  apply trimStart_nil_iff in H.
  apply trimStart_nil_iff.
  destruct (trimStart s) as [|c r] eqn:E; [reflexivity|].
  apply trimStart_head in E.
  assert (Hc : In c (rev (c :: r))) by (apply in_rev; rewrite rev_involutive; now left).
  rewrite List.Forall_forall in H. rewrite (H c Hc) in E. discriminate.
Qed.

Lemma tidy_buildSession (newId : jsstring) (p : SessionPayload.t) :
  trim (SessionPayload.focus p) <> [] -> tidySession (buildSession newId p).
Proof.
  intros Hfocus. unfold tidySession, buildSession. simpl.
  split; [exact Hfocus|]. split; [apply trim_idem|].
  destruct (trim (SessionPayload.notes p)) as [|n t] eqn:E; simpl.
  - split; [discriminate | reflexivity].
  - split; [discriminate|]. rewrite <- E. apply trim_idem.
Qed.

Lemma rosterTidy_handleAddSession
    (newId : jsstring) (p : SessionPayload.t) (s : AppState) :
  rosterTidy (children s) -> rosterTidy (children (handleAddSession newId p s)).
Proof.
  intros H. unfold handleAddSession.
  destruct (trim (SessionPayload.focus p)) as [|n t] eqn:E; [exact H|].
  simpl. unfold rosterTidy in *. rewrite Forall_map.
  eapply Forall_impl; [exact H|]. intros c Hc. simpl.
  unfold addSessionToChild. destruct (negb _); [exact Hc|]. simpl.
  constructor; [|exact Hc]. apply tidy_buildSession. now rewrite E.
Qed.

(** X25. Stored sessions are tidy: from a roster whose session records all
    have a focus and notes that are not empty and carry no white space at
    either end (trimming them changes nothing), every state reached has such
    a roster again; [handleAddSession] only ever stores a trimmed focus that
    is not empty, and trimmed notes or, for blank notes, the placeholder
    text. *)
Theorem sessions_tidy_invariant
    (therapists : list TherapistProfile.t) (parents : list ParentProfile.t)
    (donors : list DonorProfile.t) (s0 s : AppState) :
  rosterTidy (children s0) ->
  reachable therapists parents donors s0 s ->
  rosterTidy (children s).
Proof.
  intros H0 Hreach. induction Hreach as [|s e s' _ IH Hstep]; [exact H0|].
  destruct (step_children therapists parents donors e s s' Hstep)
    as [-> | (newId & p & _ & ->)];
    [exact IH | now apply rosterTidy_handleAddSession].
Qed.

Lemma sessions_tidy_invariant_witness :
  let s0 := Sample.state [Sample.c1; Sample.c2] therapist "t1" "p1" "d1" "c1" in
  let p := Sample.payload "c1" "  Play skills " 5 ["g1"%string] in
  rosterTidy (children (handleAddSession (js "s-new") p s0)).
Proof.
  intros s0 p.
  apply (sessions_tidy_invariant [] [] [] s0).
  - repeat constructor.
  - apply (reach_step [] [] [] s0 s0 (AddSession (js "s-new") p));
      [apply reach_init | reflexivity].
Defined.

Lemma handleAddFamilyUpdate_lookup
    (newId nowIso childId message : jsstring) (s s' : AppState) :
  trim message <> [] ->
  handleAddFamilyUpdate newId nowIso childId message s = Done s' ->
  familyUpdates s' !! childId
  = Some (FamilyUpdate.mk newId (trim message) nowIso
            :: default [] (familyUpdates s !! childId)).
Proof.
  intros Htext. unfold handleAddFamilyUpdate.
  destruct (trim message) as [|n t]; [contradiction|]. cbn [truthy negb].
  destruct (familyUpdates s !! childId) as [existing|] eqn:El.
  - intros [= <-]. state_fields. apply lookup_insert_eq.
  - destruct (includes objectPrototypeKeys childId); [discriminate|].
    intros [= <-]. state_fields. apply lookup_insert_eq.
Qed.

(** X26. What "blank" means for the two forms: a text is blank after
    trimming exactly when every one of its code units is white space or a
    line terminator; so a family update goes through without effect exactly
    for such texts, whatever the child id and state. *)
Theorem blank_iff_all_whitespace (message : jsstring) :
  (forall newId nowIso childId s,
      handleAddFamilyUpdate newId nowIso childId message s = Done s)
  <-> Forall (fun c => isWhiteSpace c = true) message.
Proof.
  rewrite <- trim_nil_iff. split.
  - intros H. destruct (trim message) as [|n t] eqn:E; [reflexivity|]. exfalso.
    specialize (H [] [] [] (initialState [] [] [] [])).
    apply handleAddFamilyUpdate_lookup in H; [|rewrite E; discriminate].
    discriminate H.
  - intros Hblank newId nowIso childId s. unfold handleAddFamilyUpdate.
    now rewrite Hblank.
Qed.

(** ** The role panel *)

Lemma resolvedChild_nonempty
    (parents : list ParentProfile.t) (donors : list DonorProfile.t) (s : AppState) :
  children s <> [] -> exists c, resolvedChild parents donors s = Some c.
Proof.
  intros Hne. unfold resolvedChild.
  destruct (selectedChild s) as [c|]; [now exists c|]. simpl.
  destruct (head (filteredChildren parents donors s)) as [c|]; [now exists c|]. simpl.
  destruct (children s) as [|c cs]; [contradiction | now exists c].
Qed.


